(** * DeviantArt service: credential lifecycle and resilient pager

    A shallow embedding of [app/sites/deviantart/service.py] (class
    [DAService]) and the properties of its token exchange, access guard and
    cursor pagination.

    Python values are a small inductive type; the service object, the
    replies of the server and the console are explicit: every method is a
    function from the state of the service to the events it performs, its
    result (a value or a raised exception) and the next state. *)

From Stdlib Require Import ZArith Lia Ascii String.
From stdpp Require Import gmap strings list.

Local Open Scope string_scope.
Local Open Scope list_scope.
Local Open Scope Z_scope.

(** ** Python values *)

(** The values the service handles: what [response.json()] and
    [get_creds()] return. A dict keeps its items in insertion order, with
    string keys (JSON objects); a float is opaque to the service and kept as
    mantissa and binary exponent. *)
#[warnings="-register-all"]
Inductive pyval : Type :=
| PNone
| PBool (b : bool)
| PInt (n : Z)
| PFloat (m e : Z)
| PStr (s : string)
| PList (l : list pyval)
| PDict (d : list (string * pyval)).

(** Exceptions the service can leave with. [quit(1)] raises [SystemExit]. *)
Inductive exn : Type :=
| SystemExit (code : Z)
| KeyError (key : string)
| TypeError
| AttributeError
| Exception (msg : string)
| ContentError              (* response.json() on a body that is not JSON *)
| ClientConnectionError     (* the transport gave no response *)
| ClientResponseError (status : Z).

Inductive result (A : Type) : Type :=
| Ok (a : A)
| Raise (e : exn).
Arguments Ok {A} a.
Arguments Raise {A} e.

Definition rbind {A B} (r : result A) (f : A → result B) : result B :=
  match r with
  | Ok a => f a
  | Raise e => Raise e
  end.

(** *** Dicts as insertion-ordered item lists *)

Fixpoint dict_get (k : string) (d : list (string * pyval)) : option pyval :=
  match d with
  | [] => None
  | (k', v) :: d' => if String.eqb k k' then Some v else dict_get k d'
  end.

(** [d[k] = v]: an existing key keeps its place, a new one goes last. *)
Fixpoint dict_set (k : string) (v : pyval) (d : list (string * pyval))
  : list (string * pyval) :=
  match d with
  | [] => [(k, v)]
  | (k', v') :: d' =>
      if String.eqb k k' then (k', v) :: d' else (k', v') :: dict_set k v d'
  end.

(** [d.pop(k, default)]: the key is gone afterwards, present or not. *)
Fixpoint dict_pop (k : string) (d : list (string * pyval))
  : list (string * pyval) :=
  match d with
  | [] => []
  | (k', v') :: d' =>
      if String.eqb k k' then dict_pop k d' else (k', v') :: dict_pop k d'
  end.

(** Keys in iteration order, each once. *)
Fixpoint dict_keys (d : list (string * pyval)) : list string :=
  match d with
  | [] => []
  | (k, _) :: d' => k :: List.filter (λ k', negb (String.eqb k k')) (dict_keys d')
  end.

(** *** Operators *)

(** [bool(v)], as used by [get_creds() or {}]. *)
Definition py_truthy (v : pyval) : bool :=
  match v with
  | PNone => false
  | PBool b => b
  | PInt n => negb (n =? 0)
  | PFloat m _ => negb (m =? 0)
  | PStr s => negb (String.eqb s "")
  | PList l => match l with [] => false | _ => true end
  | PDict d => match d with [] => false | _ => true end
  end.

(** [v is None] *)
Definition is_None (v : pyval) : bool :=
  match v with PNone => true | _ => false end.

(** [v is False] *)
Definition is_False (v : pyval) : bool :=
  match v with PBool false => true | _ => false end.

(** [v == s] for a string literal [s] *)
Definition eq_str (v : pyval) (s : string) : bool :=
  match v with PStr s' => String.eqb s' s | _ => false end.

Definition is_substring (needle s : string) : bool :=
  match String.index 0 needle s with Some _ => true | None => false end.

(** [s in v] for a string literal [s]: key of a dict, element of a list,
    substring of a string; other values are not containers. *)
Definition py_in (s : string) (v : pyval) : result bool :=
  match v with
  | PDict d => Ok (match dict_get s d with Some _ => true | None => false end)
  | PList l => Ok (existsb (λ x, eq_str x s) l)
  | PStr t => Ok (is_substring s t)
  | _ => Raise TypeError
  end.

(** [v[k]] for a string literal [k]: only a dict can be indexed by one. *)
Definition py_getitem (v : pyval) (k : string) : result pyval :=
  match v with
  | PDict d => match dict_get k d with Some x => Ok x | None => Raise (KeyError k) end
  | _ => Raise TypeError
  end.

(** [v.get(k)]: a method of dicts. *)
Definition py_get (v : pyval) (k : string) : result pyval :=
  match v with
  | PDict d => Ok (match dict_get k d with Some x => x | None => PNone end)
  | _ => Raise AttributeError
  end.

(** [v.pop(k, default)]: a dict loses the key; a list's [pop] takes one
    argument only; other values have no [pop]. *)
Definition py_pop (v : pyval) (k : string) : result pyval :=
  match v with
  | PDict d => Ok (PDict (dict_pop k d))
  | PList _ => Raise TypeError
  | _ => Raise AttributeError
  end.

(** [v[k] = x] for a string literal [k], giving the container afterwards. *)
Definition py_setitem (v : pyval) (k : string) (x : pyval) : result pyval :=
  match v with
  | PDict d => Ok (PDict (dict_set k x d))
  | _ => Raise TypeError
  end.

Fixpoint chars (s : string) : list pyval :=
  match s with
  | EmptyString => []
  | String c s' => PStr (String c EmptyString) :: chars s'
  end.

(** The items [for x in v] goes through. *)
Definition py_iter (v : pyval) : result (list pyval) :=
  match v with
  | PList l => Ok l
  | PDict d => Ok (PStr <$> dict_keys d)
  | PStr s => Ok (chars s)
  | _ => Raise TypeError
  end.

(** [s + v] for a string [s] *)
Definition str_add (s : string) (v : pyval) : result string :=
  match v with
  | PStr t => Ok (String.append s t)
  | _ => Raise TypeError
  end.

(** ** The outside world *)

(** A request as handed to the session: the [authorization] header is the
    only header the service ever sets. *)
Record request : Type := Request {
  req_method : string;
  req_url : string;
  req_params : gmap string pyval;
  req_headers : gmap string string;
}.

(** What the service reads from a response: its status and the result of
    [await response.json()] ([None] when that raises). *)
Record response : Type := Response {
  status : Z;
  json : option pyval;
}.

(** [response.ok] *)
Definition ok (r : response) : bool := status r <? 400.

(** What the transport gives back for a request. *)
Inductive reply : Type :=
| Answer (r : response)
| NoAnswer.

(** Everything the service does that can be seen from outside. Items a
    generator yields are events as well; [EvEnsureAccess] marks each entry
    into [_ensure_access]. *)
Inductive event : Type :=
| EvHttp (req : request) (rep : reply)
| EvPrint (args : list pyval)
| EvPrintInline (args : list pyval)
| EvSleep (seconds : Z)
| EvSaveCreds (creds : pyval)
| EvCacheInsert (slug : string) (key : pyval) (value : pyval)
| EvYield (item : pyval)
| EvEnsureAccess.

(** ** The service object *)

Record DAService : Type := Service {
  creds : pyval;
  client_id : pyval;
  client_secret : pyval;
  code : pyval;
  access_token : pyval;
  refresh_token : pyval;
}.

(** The service together with how many replies of the probe endpoint and of
    the token endpoint have been consumed so far. *)
Record machine : Type := Machine {
  self : DAService;
  placebo_seen : nat;
  token_seen : nat;
}.

(** ** Computations: events, a result or an exception, the next state *)

Record run (A : Type) : Type := Run {
  trace : list event;
  outcome : result A;
  final : machine;
}.
Arguments Run {A} trace outcome final.
Arguments trace {A} r.
Arguments outcome {A} r.
Arguments final {A} r.

Definition M (A : Type) : Type := machine → run A.

Definition ret {A} (a : A) : M A := λ σ, Run [] (Ok a) σ.

Definition raise {A} (e : exn) : M A := λ σ, Run [] (Raise e) σ.

Definition bind {A B} (m : M A) (f : A → M B) : M B := λ σ,
  match m σ with
  | Run t (Ok a) σ' =>
      match f a σ' with
      | Run t' r σ'' => Run (t ++ t') r σ''
      end
  | Run t (Raise e) σ' => Run t (Raise e) σ'
  end.

Definition lift {A} (r : result A) : M A := λ σ, Run [] r σ.

Definition emit (ev : event) : M unit := λ σ, Run [ev] (Ok tt) σ.

Definition get_self : M DAService := λ σ, Run [] (Ok (self σ)) σ.

Definition set_self (s : DAService) : M unit := λ σ,
  Run [] (Ok tt) (Machine s (placebo_seen σ) (token_seen σ)).

Declare Scope service_scope.
Delimit Scope service_scope with service.
Notation "'let*' x ':=' m 'in' k" := (bind m (λ x, k))
  (at level 10, x name, m at level 100, k at level 200) : service_scope.
Notation "m '>>' k" := (bind m (λ _, k))
  (at level 100, k at level 200, right associativity) : service_scope.
Local Open Scope service_scope.

(** [for x in items: body(x)] *)
Fixpoint for_each (body : pyval → M unit) (items : list pyval) : M unit :=
  match items with
  | [] => ret tt
  | x :: items' => body x >> for_each body items'
  end.

(** Console and clock. *)
Definition print (args : list pyval) : M unit := emit (EvPrint args).
Definition print_inline (args : list pyval) : M unit := emit (EvPrintInline args).
Definition sleep (seconds : Z) : M unit := emit (EvSleep seconds).
Definition quit {A} (code : Z) : M A := raise (SystemExit code).

(** One exchange over a session: the request goes out, the reply comes in. *)
Definition exchange (req : request) (rep : reply) : M response :=
  emit (EvHttp req rep) >>
  match rep with
  | Answer r => ret r
  | NoAnswer => raise ClientConnectionError
  end.

(** [await response.json()] *)
Definition response_json (r : response) : M pyval :=
  match json r with
  | Some data => ret data
  | None => raise ContentError
  end.

(** [response.raise_for_status()] *)
Definition raise_for_status (r : response) : M unit :=
  if ok r then ret tt else raise (ClientResponseError (status r)).

(** ** The service's methods *)

Definition API_URL : string := "/api/v1/oauth2".
Definition DEFAULT_RATE_LIMIT_TIMEOUT : Z := 32.
Definition INVALID_CODE_MSG : string := "Incorrect authorization code.".

(** How one turn of the pager's [while True] ends. *)
Inductive flow : Type :=
| Continue (rate_limit_sec : Z) (params : gmap string pyval)
| Break.

(** How a run of the pager over the replies received so far ends: the
    generator is exhausted, or it is suspended in [session.request] with the
    loop's variables as they are. *)
Inductive pager_end : Type :=
| Exhausted
| Awaiting (rate_limit_sec : Z) (params : gmap string pyval).

Section Service.

(** Constants and helpers of [.common] and the replies of the two
    authorization endpoints: the [n]-th request to an endpoint receives its
    [n]-th reply. *)
Variables SLUG OAUTH_KEY : string.
Variable REDIRECT_URI : pyval.
Variable make_cache_key : pyval → pyval → pyval.
Variable placebo_replies : nat → reply.
Variable token_replies : nat → reply.

(** [DAService.__init__], on what [get_creds()] returned. *)
Definition __init__ (stored : pyval) : result DAService :=
  let self_creds := if py_truthy stored then stored else PDict [] in
  rbind (if is_None self_creds then Raise (Exception "Not authorized")
         else Ok tt) (λ _,
  rbind (py_getitem self_creds SLUG) (λ creds,
  rbind (py_getitem creds "client_id") (λ client_id,
  rbind (py_getitem creds "client_secret") (λ client_secret,
  rbind (py_getitem creds OAUTH_KEY) (λ oauth,
  rbind (py_get oauth "code") (λ code,
  rbind (py_get oauth "access_token") (λ access_token,
  rbind (py_get oauth "refresh_token") (λ refresh_token,
  Ok (Service self_creds client_id client_secret code access_token
        refresh_token))))))))).

(** [self._auth_header] *)
Definition _auth_header (s : DAService) : result string :=
  str_add "Bearer " (access_token s).

(** [self._headers] *)
Definition _headers (s : DAService) : result (gmap string string) :=
  rbind (_auth_header s) (λ h, Ok {[ "authorization" := h ]}).

(** [_save_tokens]: the deep copy of [self.creds] is edited in place (the
    dicts on the path to the tokens keep their other items) and saved;
    [self.creds] itself is left as it was. *)
Definition _save_tokens : M unit :=
  let* s := get_self in
  let creds := creds s in
  let* by_slug := lift (py_getitem creds SLUG) in
  let* oauth := lift (py_getitem by_slug OAUTH_KEY) in
  let* oauth := lift (py_pop oauth "code") in
  let* oauth := lift (py_setitem oauth "access_token" (access_token s)) in
  let* oauth := lift (py_setitem oauth "refresh_token" (refresh_token s)) in
  let* by_slug := lift (py_setitem by_slug OAUTH_KEY oauth) in
  let* creds := lift (py_setitem creds SLUG by_slug) in
  emit (EvSaveCreds creds).

Definition next_token_reply : M reply := λ σ,
  Run [] (Ok (token_replies (token_seen σ)))
      (Machine (self σ) (placebo_seen σ) (S (token_seen σ))).

Definition next_placebo_reply : M reply := λ σ,
  Run [] (Ok (placebo_replies (placebo_seen σ)))
      (Machine (self σ) (S (placebo_seen σ)) (token_seen σ)).

Definition set_access_token (v : pyval) : M unit :=
  let* s := get_self in
  set_self (Service (creds s) (client_id s) (client_secret s) (code s) v
              (refresh_token s)).

Definition set_refresh_token (v : pyval) : M unit :=
  let* s := get_self in
  set_self (Service (creds s) (client_id s) (client_secret s) (code s)
              (access_token s) v).

Definition authorization_error_msg : string :=
  String.append "An error occured during authorization"
                (String "010"%char " ").

(** [_authorize] *)
Definition _authorize (add_params : gmap string pyval) : M unit :=
  let* s := get_self in
  let params : gmap string pyval :=
    add_params ∪ {[ "client_id" := client_id s;
                    "client_secret" := client_secret s ]} in
  let* rep := next_token_reply in
  let* response := exchange (Request "POST" "/oauth2/token" params ∅) rep in
  let* data := response_json response in
  let* has_error := lift (py_in "error" data) in
  if has_error then
    let* description := lift (py_getitem data "error_description") in
    print [PStr authorization_error_msg; description] >>
    quit 1
  else if ok response then
    let* access := lift (py_getitem data "access_token") in
    set_access_token access >>
    let* refresh := lift (py_getitem data "refresh_token") in
    set_refresh_token refresh >>
    _save_tokens
  else
    let* description := lift (py_getitem data "error_description") in
    if eq_str description INVALID_CODE_MSG then
      print [PStr "Please authorize again"]
    else ret tt.

(** [_fetch_access_token] *)
Definition _fetch_access_token : M unit :=
  let* s := get_self in
  (if is_None (code s) then
     print [PStr "Authorize app first"] >> quit 1
   else ret tt) >>
  _authorize {[ "grant_type" := PStr "authorization_code";
                "code" := code s;
                "redirect_uri" := REDIRECT_URI ]}.

(** [_refresh_token] *)
Definition _refresh_token : M unit :=
  let* s := get_self in
  (if is_None (refresh_token s) then raise (Exception "No refresh token")
   else ret tt) >>
  _authorize {[ "grant_type" := PStr "refresh_token";
                "refresh_token" := refresh_token s ]}.

(** [_ensure_access] *)
Definition _ensure_access : M unit :=
  emit EvEnsureAccess >>
  let* s := get_self in
  if is_None (refresh_token s) then _fetch_access_token
  else
    let* rep := next_placebo_reply in
    let* response :=
      exchange (Request "POST" "/api/v1/oauth2/placebo"
                        {[ "access_token" := access_token s ]} ∅) rep in
    let* data := response_json response in
    let* st := lift (py_getitem data "status") in
    if eq_str st "success" then ret tt
    else _refresh_token.

(** *** The pager *)

(** The branch [if response.status == 429:], up to its [continue]. *)
Definition throttled (rate_limit_sec : Z) (params : gmap string pyval)
  : M flow :=
  (if rate_limit_sec =? DEFAULT_RATE_LIMIT_TIMEOUT then
     let* username :=
       lift (match params !! "username" with
             | Some u => Ok u
             | None => Raise (KeyError "username")
             end) in
     let* msg := lift (str_add "Rate limit in pager (" username) in
     let* offset :=
       lift (match params !! "offset" with
             | Some o => Ok o
             | None => Raise (KeyError "offset")
             end) in
     print [PStr (String.append msg "), offset"); offset]
   else if rate_limit_sec >? 64 * 10 then _ensure_access
   else ret tt) >>
  print_inline [PStr "Retrying in"; PInt rate_limit_sec; PStr "sec"] >>
  sleep rate_limit_sec >>
  ret (Continue (rate_limit_sec * 2) params).

(** The two [elif] branches of a response that is not a 429: the reset
    after a throttling episode, or else the check for an [error] member.
    Gives [rate_limit_sec] as it is afterwards. *)
Definition unthrottled (url : string) (rate_limit_sec : Z) (data : pyval)
  : M Z :=
  if negb (rate_limit_sec =? DEFAULT_RATE_LIMIT_TIMEOUT) then
    _ensure_access >>
    print [] >>
    ret DEFAULT_RATE_LIMIT_TIMEOUT
  else
    let* has_error := lift (py_in "error" data) in
    if has_error then
      print [PStr "An error occured during fetching"; PStr url] >>
      let* description := lift (py_getitem data "error_description") in
      print [PStr " "; description] >>
      quit 1
    else ret rate_limit_sec.

(** The rest of the loop body, from [response.raise_for_status()] on.
    [on_item] is what the consumer's [async for] body does with an item
    before the generator is resumed. *)
Definition deliver (on_item : pyval → M unit) (response : response)
    (data : pyval) (rate_limit_sec : Z) (params : gmap string pyval)
  : M flow :=
  raise_for_status response >>
  let* results := lift (py_getitem data "results") in
  let* items := lift (py_iter results) in
  for_each on_item items >>
  let* has_more := lift (py_getitem data "has_more") in
  if is_False has_more then ret Break
  else
    let* next_offset := lift (py_getitem data "next_offset") in
    ret (Continue rate_limit_sec (<["offset" := next_offset]> params)).

(** One turn of [_pager]'s [while True], on the reply the session gives to
    this turn's request. [headers] are those of the session the caller
    opened. *)
Definition pager_turn (headers : gmap string string) (method url : string)
    (on_item : pyval → M unit)
    (rate_limit_sec : Z) (params : gmap string pyval) (rep : reply) : M flow :=
  let* response := exchange (Request method url params headers) rep in
  let* data := response_json response in
  if status response =? 429 then throttled rate_limit_sec params
  else
    let* rate_limit_sec := unthrottled url rate_limit_sec data in
    deliver on_item response data rate_limit_sec params.

(** The loop, over the replies the session gives to its successive
    requests. *)
Fixpoint pager_loop (headers : gmap string string) (method url : string)
    (on_item : pyval → M unit)
    (rate_limit_sec : Z) (params : gmap string pyval) (replies : list reply)
  : M pager_end :=
  match replies with
  | [] => ret (Awaiting rate_limit_sec params)
  | rep :: replies' =>
      let* fl := pager_turn headers method url on_item rate_limit_sec params rep in
      match fl with
      | Break => ret Exhausted
      | Continue rate_limit_sec' params' =>
          pager_loop headers method url on_item rate_limit_sec' params' replies'
      end
  end.

(** [_pager(session, method, url, params=params)], drained by a consumer
    that runs [on_item] on each item. *)
Definition _pager (headers : gmap string string) (method url : string)
    (params : gmap string pyval) (on_item : pyval → M unit)
    (replies : list reply) : M pager_end :=
  pager_loop headers method url on_item DEFAULT_RATE_LIMIT_TIMEOUT
    (<["mature_content" := PStr "true"]>
       (<["limit" := PInt 24]> (<["offset" := PInt 0]> params)))
    replies.

(** A consumer that hands every item on. *)
Definition yield (item : pyval) : M unit := emit (EvYield item).

(** The body of [list_folder_arts]'s [async for]. *)
Definition on_art (art : pyval) : M unit :=
  (if negb (is_None art) then
     let* author := lift (py_getitem art "author") in
     let* username := lift (py_getitem author "username") in
     let* url := lift (py_getitem art "url") in
     let* deviationid := lift (py_getitem art "deviationid") in
     emit (EvCacheInsert SLUG (make_cache_key username url) deviationid)
   else ret tt) >>
  yield art.

(** [list_folder_arts(username, folder)], drained by its caller. *)
Definition list_folder_arts (username folder : string)
    (replies : list reply) : M pager_end :=
  _ensure_access >>
  let params : gmap string pyval := {[ "username" := PStr username ]} in
  let url := String.append API_URL (String.append "/gallery/" folder) in
  let* s := get_self in
  let* headers := lift (_headers s) in
  _pager headers "GET" url params on_art replies.

(** ** Observations on traces *)

Definition http_calls (t : list event) : list request :=
  omap (λ ev, match ev with EvHttp req _ => Some req | _ => None end) t.

Definition saved_creds (t : list event) : list pyval :=
  omap (λ ev, match ev with EvSaveCreds c => Some c | _ => None end) t.

Definition printed (t : list event) : list (list pyval) :=
  omap (λ ev, match ev with EvPrint args => Some args | _ => None end) t.

Definition sleeps (t : list event) : list Z :=
  omap (λ ev, match ev with EvSleep n => Some n | _ => None end) t.

Definition yielded (t : list event) : list pyval :=
  omap (λ ev, match ev with EvYield x => Some x | _ => None end) t.

Definition ensure_access_calls (t : list event) : nat :=
  length (List.filter (λ ev, match ev with EvEnsureAccess => true | _ => false end) t).

(** The [offset] parameter of each request that carries one: the pager's
    requests, in the order they were sent. *)
Definition sent_offsets (t : list event) : list pyval :=
  omap (λ ev, match ev with
              | EvHttp req _ => req_params req !! "offset"
              | _ => None
              end) t.

Definition is_token_request (req : request) : bool :=
  String.eqb (req_url req) "/oauth2/token".

(** The exchanges with the token endpoint. *)
Definition token_exchanges (t : list event) : list request :=
  List.filter is_token_request (http_calls t).

Definition grant_type (req : request) : option pyval :=
  req_params req !! "grant_type".

(** The request [_authorize] sends. *)
Definition token_request (add_params : gmap string pyval) (s : DAService)
  : request :=
  Request "POST" "/oauth2/token"
    (add_params ∪ {[ "client_id" := client_id s;
                     "client_secret" := client_secret s ]}) ∅.

(** The request [_ensure_access] probes with. *)
Definition probe_request (s : DAService) : request :=
  Request "POST" "/api/v1/oauth2/placebo"
    {[ "access_token" := access_token s ]} ∅.

Definition code_grant (s : DAService) : gmap string pyval :=
  {[ "grant_type" := PStr "authorization_code";
     "code" := code s;
     "redirect_uri" := REDIRECT_URI ]}.

Definition refresh_grant (s : DAService) : gmap string pyval :=
  {[ "grant_type" := PStr "refresh_token";
     "refresh_token" := refresh_token s ]}.

(** What the probe's reply says: success, something else, or nothing
    readable. *)
Definition probe_verdict (rep : reply) : result bool :=
  match rep with
  | NoAnswer => Raise ClientConnectionError
  | Answer r =>
      match json r with
      | None => Raise ContentError
      | Some data =>
          rbind (py_getitem data "status") (λ st, Ok (eq_str st "success"))
      end
  end.

(** ** Vocabulary of the properties *)

(** Events of the authorization code: requests, console output and saves;
    no sleep, no item, no nested guard. *)
Definition auth_event (ev : event) : bool :=
  match ev with
  | EvHttp req _ =>
      match req_params req !! "offset" with Some _ => false | None => true end
  | EvPrint _ | EvSaveCreds _ => true
  | _ => false
  end.

(** The item [k] of the OAuth material in a credentials value. *)
Definition oauth_item (c : pyval) (k : string) : result pyval :=
  rbind (py_getitem c SLUG) (λ by_slug,
  rbind (py_getitem by_slug OAUTH_KEY) (λ oauth, py_getitem oauth k)).

(** A saved value that has no code and whose two tokens are those of the
    response body [data]. *)
Definition holds_exchange_result (c data : pyval) : Prop :=
  oauth_item c "code" = Raise (KeyError "code")
  ∧ ∃ access refresh,
      py_getitem data "access_token" = Ok access
      ∧ py_getitem data "refresh_token" = Ok refresh
      ∧ oauth_item c "access_token" = Ok access
      ∧ oauth_item c "refresh_token" = Ok refresh.

Definition from_one_exchange (c : pyval) : Prop :=
  ∃ i r data,
    token_replies i = Answer r ∧ ok r = true ∧ json r = Some data
    ∧ holds_exchange_result c data.

(** Credentials as [__init__] accepts them: the OAuth material is there and
    is a dict. *)
Definition creds_wf (c : pyval) : Prop :=
  ∃ by_slug oauth_items,
    py_getitem c SLUG = Ok by_slug
    ∧ py_getitem by_slug OAUTH_KEY = Ok (PDict oauth_items).

(** [m] keeps the state property [I] and performs only events with [P]. *)
Definition keeps {A} (I : machine → Prop) (P : event → Prop) (m : M A) : Prop :=
  ∀ σ, I σ → I (final (m σ)) ∧ Forall P (trace (m σ)).

(** Saves are the only events the invariant constrains. *)
Definition saves_ok (ev : event) : Prop :=
  match ev with
  | EvSaveCreds c => from_one_exchange c
  | _ => True
  end.

Definition creds_are (c0 : pyval) (σ : machine) : Prop :=
  creds (self σ) = c0.

(** The calls a user of the service object can make. *)
Inductive call : Type :=
| CallEnsureAccess
| CallFetchAccessToken
| CallRefreshToken
| CallAuthorize (add_params : gmap string pyval)
| CallListFolderArts (username folder : string) (replies : list reply).

Definition perform (c : call) : M unit :=
  match c with
  | CallEnsureAccess => _ensure_access
  | CallFetchAccessToken => _fetch_access_token
  | CallRefreshToken => _refresh_token
  | CallAuthorize add_params => _authorize add_params
  | CallListFolderArts username folder replies =>
      list_folder_arts username folder replies >> ret tt
  end.

(** Calls made one after the other on one service object, by a caller that
    carries on after an exception: all the events, and the last state. *)
Fixpoint perform_all (cs : list call) (σ : machine) : list event * machine :=
  match cs with
  | [] => ([], σ)
  | c :: cs' =>
      let r := perform c σ in
      let rest := perform_all cs' (final r) in
      (trace r ++ rest.1, rest.2)
  end.

Definition prepend {A} (t : list event) (r : run A) : run A :=
  Run (t ++ trace r) (outcome r) (final r).
Arguments prepend : simpl never.

(** What a consumer of the generator does: it hands items on and notifies
    the cache. *)
Definition consumer_event (ev : event) : bool :=
  match ev with
  | EvYield _ | EvCacheInsert _ _ _ => true
  | _ => false
  end.

Definition consumer (on_item : pyval → M unit) : Prop :=
  ∀ x σ, forallb consumer_event (trace (on_item x σ)) = true.

(** What the loop does after a turn. *)
Definition after_turn (headers : gmap string string) (method url : string)
    (on_item : pyval → M unit) (replies : list reply) (fl : flow)
  : M pager_end :=
  match fl with
  | Break => ret Exhausted
  | Continue rate params =>
      pager_loop headers method url on_item rate params replies
  end.

(** Waits that double from [rate] on, [k] of them. *)
Fixpoint backoff (rate : Z) (k : nat) : list Z :=
  match k with
  | O => []
  | S k' => rate :: backoff (rate * 2) k'
  end.

Definition is_throttle (rep : reply) : bool :=
  match rep with
  | Answer r => status r =? 429
  | NoAnswer => false
  end.


(** The cursor a reply hands to the run: the [next_offset] of a readable
    response that is not a 429 and whose [has_more] is not false. *)
Definition served_cursor (rep : reply) : option pyval :=
  match rep with
  | Answer r =>
      if status r =? 429 then None
      else match json r with
           | Some data =>
               match py_getitem data "has_more", py_getitem data "next_offset" with
               | Ok has_more, Ok next_offset =>
                   if is_False has_more then None else Some next_offset
               | _, _ => None
               end
           | None => None
           end
  | NoAnswer => None
  end.

Definition served_cursors (replies : list reply) : list pyval :=
  omap served_cursor replies.

(** Integers that never go down, starting at [lo] or above. *)
Fixpoint nondecreasing_from (lo : Z) (l : list pyval) : bool :=
  match l with
  | [] => true
  | PInt z :: l' => (lo <=? z) && nondecreasing_from z l'
  | _ => false
  end.

(** A readable response that is not a 429 and says [has_more] is false. *)
Definition reports_end (rep : reply) : bool :=
  match rep with
  | Answer r =>
      negb (status r =? 429)
      && match json r with
         | Some data =>
             match py_getitem data "has_more" with
             | Ok has_more => is_False has_more
             | Raise _ => false
             end
         | None => false
         end
  | NoAnswer => false
  end.



(** [v[k]] when it is there. *)
Definition item (v : pyval) (k : string) : pyval :=
  match py_getitem v k with
  | Ok x => x
  | Raise _ => PNone
  end.






(** ** Token exchange *)

Ltac run_auth :=
  unfold _ensure_access, _fetch_access_token, _refresh_token, _authorize,
    _save_tokens, set_access_token, set_refresh_token, next_token_reply,
    next_placebo_reply, exchange, response_json, print, quit, emit, lift,
    get_self, set_self, bind, ret, raise;
  simpl.


Ltac run_prims :=
  unfold set_access_token, set_refresh_token, next_token_reply,
    next_placebo_reply, exchange, response_json, raise_for_status, print,
    print_inline, sleep, quit, yield, emit, lift, get_self, set_self, bind,
    ret, raise;
  simpl.

(** What [_authorize] does with a failure response without [error]. *)
Lemma authorize_failure_run add_params σ r data :
  token_replies (token_seen σ) = Answer r →
  ok r = false →
  json r = Some data →
  py_in "error" data = Ok false →
  _authorize add_params σ =
    Run (EvHttp (token_request add_params (self σ)) (Answer r) ::
         match py_getitem data "error_description" with
         | Ok description =>
             if eq_str description INVALID_CODE_MSG
             then [EvPrint [PStr "Please authorize again"]]
             else []
         | Raise _ => []
         end)
        (rbind (py_getitem data "error_description") (λ _, Ok tt))
        (Machine (self σ) (placebo_seen σ) (S (token_seen σ))).
Proof.
  intros Hrep Hok Hjson Herr. run_auth.
  rewrite Hrep; simpl. rewrite Hjson; simpl. rewrite Herr; simpl. rewrite Hok.
  destruct (py_getitem data "error_description") as [d|]; simpl; [|done].
  by destruct (eq_str d INVALID_CODE_MSG).
Qed.

(** C10. A token-endpoint response that is not HTTP-ok and whose body has
    no [error] member changes nothing: the service keeps its tokens and
    nothing is saved, whether [_authorize] then announces the invalid code,
    fails on a missing [error_description], or returns silently. *)
Theorem authorize_failure_applies_nothing add_params σ r data :
  token_replies (token_seen σ) = Answer r →
  ok r = false →
  json r = Some data →
  py_in "error" data = Ok false →
  let res := _authorize add_params σ in
  self (final res) = self σ
  ∧ saved_creds (trace res) = []
  ∧ (outcome res = Ok tt
     ∨ outcome res = Raise (KeyError "error_description")
     ∨ outcome res = Raise TypeError).
Proof.
  intros Hrep Hok Hjson Herr res. subst res.
  rewrite (authorize_failure_run _ _ r data) by done. simpl.
  split; [done|]. split.
  - destruct (py_getitem data "error_description") as [d|]; [|done].
    by destruct (eq_str d INVALID_CODE_MSG).
  - destruct data; simpl; auto.
    destruct (dict_get "error_description" d); simpl; auto.
Qed.


(** ** The access guard *)

Lemma grant_type_code_grant s :
  grant_type (token_request (code_grant s) s) =
    Some (PStr "authorization_code").
Proof. reflexivity. Qed.

Lemma grant_type_refresh_grant s :
  grant_type (token_request (refresh_grant s) s) =
    Some (PStr "refresh_token").
Proof. reflexivity. Qed.


Lemma auth_events_observed t :
  forallb auth_event t = true →
  sleeps t = [] ∧ yielded t = [] ∧ ensure_access_calls t = 0%nat
  ∧ sent_offsets t = [].
Proof.
  induction t as [|ev t IH]; [done|]. simpl. intros [Hev Ht]%andb_prop.
  destruct (IH Ht) as (IH1 & IH2 & IH3 & IH4).
  unfold sleeps, yielded, ensure_access_calls, sent_offsets in *. simpl.
  destruct ev; simpl in *; try done.
  destruct (req_params req !! "offset"); done.
Qed.

Lemma authorize_events add_params σ :
  add_params !! "offset" = None →
  forallb auth_event (trace (_authorize add_params σ)) = true.
Proof.
  intros Hoff.
  assert (req_params (token_request add_params (self σ)) !! "offset" = None)
    as Hreq.
  { simpl. apply lookup_union_None. split; [done|]. reflexivity. }
  simpl in Hreq.
  run_auth. set (params := add_params ∪ _) in *.
  destruct (token_replies (token_seen σ)) as [r|]; simpl; rewrite ?Hreq;
    [|done].
  destruct (json r) as [data|]; simpl; rewrite ?Hreq; [|done].
  destruct (py_in "error" data) as [[]|]; simpl; rewrite ?Hreq; [| |done].
  - by destruct (py_getitem data "error_description"); simpl; rewrite Hreq.
  - destruct (ok r); simpl.
    + destruct (py_getitem data "access_token"); simpl; rewrite ?Hreq; [|done].
      destruct (py_getitem data "refresh_token"); simpl; rewrite ?Hreq; [|done].
      destruct (py_getitem (creds (self σ)) SLUG) as [by_slug|]; simpl;
        rewrite ?Hreq; [|done].
      destruct (py_getitem by_slug OAUTH_KEY) as [oauth|]; simpl;
        rewrite ?Hreq; [|done].
      destruct (py_pop oauth "code") as [[]|]; simpl; rewrite ?Hreq; try done.
      by destruct by_slug, (creds (self σ)); simpl; rewrite ?Hreq.
    + destruct (py_getitem data "error_description") as [d|]; simpl;
        rewrite ?Hreq; [|done].
      by destruct (eq_str d INVALID_CODE_MSG); simpl; rewrite Hreq.
Qed.

Lemma ensure_access_events σ :
  ∃ t, trace (_ensure_access σ) = EvEnsureAccess :: t
       ∧ forallb auth_event t = true.
Proof.
  pose proof authorize_events as Hauth.
  unfold _ensure_access, _fetch_access_token, _refresh_token.
  set (authorize := _authorize) in *. clearbody authorize.
  run_prims.
  destruct (is_None (refresh_token (self σ))) eqn:Hrefresh.
  - destruct (is_None (code (self σ))) eqn:Hcode; simpl; [by eexists|].
    specialize (Hauth (code_grant (self σ)) σ eq_refl).
    fold (code_grant (self σ)).
    destruct (authorize _ σ) as [t o σ']. by eexists.
  - destruct (placebo_replies (placebo_seen σ)) as [r|]; simpl; [|by eexists].
    destruct (json r) as [data|]; simpl; [|by eexists].
    destruct (py_getitem data "status") as [st|]; simpl; [|by eexists].
    destruct (eq_str st "success"); simpl; [by eexists|].
    rewrite Hrefresh; simpl.
    fold (refresh_grant (self σ)).
    set (σ1 := Machine _ _ _).
    specialize (Hauth (refresh_grant (self σ)) σ1 eq_refl).
    destruct (authorize _ σ1) as [t o σ']. simpl in *. by eexists.
Qed.

Lemma ensure_access_observed σ :
  sleeps (trace (_ensure_access σ)) = []
  ∧ yielded (trace (_ensure_access σ)) = []
  ∧ ensure_access_calls (trace (_ensure_access σ)) = 1%nat
  ∧ sent_offsets (trace (_ensure_access σ)) = [].
Proof.
  destruct (ensure_access_events σ) as (t & -> & Ht).
  destruct (auth_events_observed t Ht) as (H1 & H2 & H3 & H4).
  repeat split; [exact H1|exact H2|exact (f_equal S H3)|exact H4].
Qed.


(** ** What gets saved *)

Lemma dict_get_set_eq k v d : dict_get k (dict_set k v d) = Some v.
Proof.
  induction d as [|[k' v'] d IH]; simpl.
  - by rewrite String.eqb_refl.
  - destruct (String.eqb k k') eqn:E; simpl; rewrite E; [done|apply IH].
Qed.

Lemma dict_get_set_ne k k' v d :
  k ≠ k' → dict_get k (dict_set k' v d) = dict_get k d.
Proof.
  intros Hne. apply String.eqb_neq in Hne.
  induction d as [|[k'' v''] d IH]; simpl.
  - by rewrite Hne.
  - destruct (String.eqb k' k'') eqn:E; simpl.
    + apply String.eqb_eq in E as <-. by rewrite Hne.
    + by rewrite IH.
Qed.

Lemma dict_get_pop_eq k d : dict_get k (dict_pop k d) = None.
Proof.
  induction d as [|[k' v'] d IH]; simpl; [done|].
  destruct (String.eqb k k') eqn:E; simpl; [done|]. by rewrite E.
Qed.

Lemma init_creds_wf stored s : __init__ stored = Ok s → creds_wf (creds s).
Proof.
  unfold __init__. set (c := if py_truthy stored then stored else PDict []).
  destruct (is_None c); simpl; [done|].
  destruct (py_getitem c SLUG) as [by_slug|] eqn:E1; simpl; [|done].
  destruct (py_getitem by_slug "client_id"); simpl; [|done].
  destruct (py_getitem by_slug "client_secret"); simpl; [|done].
  destruct (py_getitem by_slug OAUTH_KEY) as [oauth|] eqn:E2; simpl; [|done].
  destruct oauth; simpl; try done.
  intros [= <-]. simpl. by exists by_slug, d.
Qed.

(** The value [_save_tokens] saves. *)
Lemma save_tokens_run σ by_slug oauth_items :
  py_getitem (creds (self σ)) SLUG = Ok by_slug →
  py_getitem by_slug OAUTH_KEY = Ok (PDict oauth_items) →
  ∃ c, _save_tokens σ = Run [EvSaveCreds c] (Ok tt) σ
       ∧ oauth_item c "code" = Raise (KeyError "code")
       ∧ oauth_item c "access_token" = Ok (access_token (self σ))
       ∧ oauth_item c "refresh_token" = Ok (refresh_token (self σ)).
Proof.
  intros H1 H2. unfold _save_tokens. run_prims. rewrite H1; simpl.
  rewrite H2; simpl.
  destruct by_slug as [| | | | | |slug_items]; try done.
  destruct (creds (self σ)) as [| | | | | |creds_items]; try done. simpl.
  eexists. split; [done|].
  unfold oauth_item. simpl. rewrite !dict_get_set_eq. simpl.
  rewrite !dict_get_set_eq. simpl.
  rewrite dict_get_set_eq.
  rewrite (dict_get_set_ne "access_token" "refresh_token") by done.
  rewrite dict_get_set_eq.
  rewrite !dict_get_set_ne by done.
  by rewrite dict_get_pop_eq.
Qed.

(** A successful exchange: both tokens of the response replace those of the
    service and are saved together, without the code. *)
Lemma authorize_success_run add_params σ r data access refresh :
  creds_wf (creds (self σ)) →
  token_replies (token_seen σ) = Answer r →
  ok r = true →
  json r = Some data →
  py_in "error" data = Ok false →
  py_getitem data "access_token" = Ok access →
  py_getitem data "refresh_token" = Ok refresh →
  let res := _authorize add_params σ in
  ∃ c, trace res = [EvHttp (token_request add_params (self σ)) (Answer r);
                    EvSaveCreds c]
       ∧ outcome res = Ok tt
       ∧ holds_exchange_result c data
       ∧ access_token (self (final res)) = access
       ∧ refresh_token (self (final res)) = refresh
       ∧ creds (self (final res)) = creds (self σ).
Proof.
  intros (by_slug & oauth_items & H1 & H2) Hrep Hok Hjson Herr Ha Hr.
  unfold _authorize.
  pose proof save_tokens_run as Hsave.
  set (save := _save_tokens) in *. clearbody save.
  run_prims. rewrite Hrep; simpl. rewrite Hjson; simpl. rewrite Herr; simpl.
  rewrite Hok, Ha; simpl. rewrite Hr; simpl.
  set (σ1 := Machine _ _ _).
  destruct (Hsave σ1 by_slug oauth_items) as (c & -> & Hc1 & Hc2 & Hc3);
    [done..|].
  exists c. simpl. repeat split; try done.
  by exists access, refresh.
Qed.

(** *** An invariant of every method *)

Section Keeps.
Context (I : machine → Prop) (P : event → Prop).

Lemma keeps_ret {A} (a : A) : keeps I P (ret a).
Proof. intros σ Hσ. by split. Qed.

Lemma keeps_raise {A} e : keeps I P (@raise A e).
Proof. intros σ Hσ. by split. Qed.

Lemma keeps_lift {A} (r : result A) : keeps I P (lift r).
Proof. intros σ Hσ. by split. Qed.

Lemma keeps_get_self : keeps I P get_self.
Proof. intros σ Hσ. by split. Qed.

Lemma keeps_emit ev : P ev → keeps I P (emit ev).
Proof. intros Hev σ Hσ. split; [done|]. by constructor. Qed.

Lemma keeps_bind {A B} (m : M A) (f : A → M B) :
  keeps I P m → (∀ a, keeps I P (f a)) → keeps I P (bind m f).
Proof.
  intros Hm Hf σ Hσ. unfold bind.
  destruct (Hm σ Hσ) as [HI HP].
  destruct (m σ) as [t [a|e] σ']; simpl in *; [|done].
  destruct (Hf a σ' HI) as [HI' HP'].
  destruct (f a σ') as [t' o σ'']; simpl in *.
  split; [done|]. by apply Forall_app.
Qed.

Lemma keeps_for_each body items :
  (∀ x, keeps I P (body x)) → keeps I P (for_each body items).
Proof.
  intros Hbody. induction items as [|x items IH]; simpl.
  - apply keeps_ret.
  - apply keeps_bind; [apply Hbody|]. intros _. apply IH.
Qed.
End Keeps.

Ltac keeps_step :=
  match goal with
  | |- keeps _ _ (bind _ _) => apply keeps_bind; [|intros ?]
  | |- keeps _ _ (ret _) => apply keeps_ret
  | |- keeps _ _ (raise _) => apply keeps_raise
  | |- keeps _ _ (quit _) => apply keeps_raise
  | |- keeps _ _ (lift _) => apply keeps_lift
  | |- keeps _ _ get_self => apply keeps_get_self
  | |- keeps _ _ (emit _) => apply keeps_emit; try exact Logic.I
  | |- keeps _ _ (for_each _ _) => apply keeps_for_each; intros ?
  | |- keeps _ _ (if ?b then _ else _) => destruct b
  | |- keeps _ _ (match ?x with _ => _ end) => destruct x
  end.

Lemma authorize_keeps c0 add_params :
  creds_wf c0 → keeps (creds_are c0) saves_ok (_authorize add_params).
Proof.
  intros Hwf σ Hσ. unfold creds_are in *. subst c0.
  destruct (token_replies (token_seen σ)) as [r|] eqn:Hrep.
  2: { run_auth. rewrite Hrep. simpl. by repeat constructor. }
  destruct (json r) as [data|] eqn:Hjson.
  2: { run_auth. rewrite Hrep; simpl. rewrite Hjson. simpl.
       by repeat constructor. }
  destruct (py_in "error" data) as [[]|] eqn:Herr.
  - run_auth. rewrite Hrep; simpl. rewrite Hjson; simpl. rewrite Herr; simpl.
    destruct (py_getitem data "error_description"); simpl;
      by repeat constructor.
  - destruct (ok r) eqn:Hok.
    + destruct (py_getitem data "access_token") as [access|] eqn:Ha.
      * destruct (py_getitem data "refresh_token") as [refresh|] eqn:Hr.
        -- destruct (authorize_success_run add_params σ r data access refresh)
             as (c & -> & _ & Hc & _ & _ & ->); [done..|].
           split; [done|]. repeat constructor.
           by exists (token_seen σ), r, data.
        -- run_auth. rewrite Hrep; simpl. rewrite Hjson; simpl.
           rewrite Herr; simpl. rewrite Hok, Ha; simpl. rewrite Hr. simpl.
           by repeat constructor.
      * run_auth. rewrite Hrep; simpl. rewrite Hjson; simpl.
        rewrite Herr; simpl. rewrite Hok, Ha. simpl. by repeat constructor.
    + rewrite (authorize_failure_run _ _ r data) by done. simpl.
      split; [done|]. constructor; [done|].
      destruct (py_getitem data "error_description") as [d|]; [|done].
      destruct (eq_str d INVALID_CODE_MSG); by repeat constructor.
  - run_auth. rewrite Hrep; simpl. rewrite Hjson; simpl. rewrite Herr. simpl.
    by repeat constructor.
Qed.

Lemma ensure_access_keeps c0 :
  creds_wf c0 → keeps (creds_are c0) saves_ok _ensure_access.
Proof.
  intros Hwf. pose proof (authorize_keeps c0) as Hauth.
  unfold _ensure_access, _fetch_access_token, _refresh_token, exchange,
    response_json, next_placebo_reply, print.
  repeat (keeps_step; auto).
  intros σ Hσ. by split.
Qed.

Lemma pager_turn_keeps c0 headers method url on_item rate params rep :
  creds_wf c0 →
  (∀ x, keeps (creds_are c0) saves_ok (on_item x)) →
  keeps (creds_are c0) saves_ok
        (pager_turn headers method url on_item rate params rep).
Proof.
  intros Hwf Hitem. pose proof (ensure_access_keeps c0 Hwf) as Hguard.
  unfold pager_turn, throttled, unthrottled, deliver, exchange,
    response_json, raise_for_status, print, print_inline, sleep.
  repeat (keeps_step; auto).
Qed.

Lemma pager_loop_keeps c0 headers method url on_item replies :
  creds_wf c0 →
  (∀ x, keeps (creds_are c0) saves_ok (on_item x)) →
  ∀ rate params,
    keeps (creds_are c0) saves_ok
          (pager_loop headers method url on_item rate params replies).
Proof.
  intros Hwf Hitem.
  induction replies as [|rep replies IH]; intros rate params; simpl.
  - apply keeps_ret.
  - apply keeps_bind; [by apply pager_turn_keeps|].
    intros [rate' params'|]; [apply IH|apply keeps_ret].
Qed.

Lemma on_art_keeps c0 art : keeps (creds_are c0) saves_ok (on_art art).
Proof. unfold on_art, yield. repeat (keeps_step; auto). Qed.

Lemma list_folder_arts_keeps c0 username folder replies :
  creds_wf c0 →
  keeps (creds_are c0) saves_ok (list_folder_arts username folder replies).
Proof.
  intros Hwf. unfold list_folder_arts, _pager.
  keeps_step; [by apply ensure_access_keeps|].
  keeps_step; [keeps_step|]. keeps_step; [keeps_step|].
  apply pager_loop_keeps; [done|]. intros x. apply on_art_keeps.
Qed.

(** *** Any use of the service *)

Lemma perform_keeps c0 c :
  creds_wf c0 → keeps (creds_are c0) saves_ok (perform c).
Proof.
  intros Hwf. pose proof (authorize_keeps c0) as Hauth.
  pose proof (ensure_access_keeps c0 Hwf) as Hguard.
  pose proof (list_folder_arts_keeps c0) as Hlist.
  destruct c; simpl; auto.
  - unfold _fetch_access_token, print. repeat (keeps_step; auto).
  - unfold _refresh_token. repeat (keeps_step; auto).
  - repeat (keeps_step; auto).
Qed.

Lemma perform_all_keeps c0 cs σ :
  creds_wf c0 → creds_are c0 σ →
  Forall saves_ok (perform_all cs σ).1.
Proof.
  intros Hwf. revert σ. induction cs as [|c cs IH]; intros σ Hσ; simpl.
  - constructor.
  - destruct (perform_keeps c0 c Hwf σ Hσ) as [HI HP].
    apply Forall_app. split; [done|]. by apply IH.
Qed.

Lemma saved_creds_Forall (Q : pyval → Prop) t :
  Forall (λ ev, match ev with EvSaveCreds c => Q c | _ => True end) t →
  Forall Q (saved_creds t).
Proof.
  induction 1 as [|ev t Hev _ IH]; [constructor|].
  unfold saved_creds in *. simpl. destruct ev; simpl; auto.
Qed.

(** C5. From a service built by [__init__], whatever calls follow: every
    value ever saved has no authorization code in it, and its access and
    refresh tokens are the two of one single successful token response.
    And an exchange that succeeds does save such a value, the service
    holding the same two tokens. *)
Theorem saved_credentials_invariant stored s :
  __init__ stored = Ok s →
  (∀ cs n m,
     Forall from_one_exchange
            (saved_creds (perform_all cs (Machine s n m)).1))
  ∧ (∀ add_params n m r data access refresh,
       token_replies m = Answer r →
       ok r = true →
       json r = Some data →
       py_in "error" data = Ok false →
       py_getitem data "access_token" = Ok access →
       py_getitem data "refresh_token" = Ok refresh →
       let res := _authorize add_params (Machine s n m) in
       ∃ c, saved_creds (trace res) = [c]
            ∧ holds_exchange_result c data
            ∧ access_token (self (final res)) = access
            ∧ refresh_token (self (final res)) = refresh).
Proof.
  intros Hinit. pose proof (init_creds_wf _ _ Hinit) as Hwf. split.
  - intros cs n m. apply saved_creds_Forall.
    by apply (perform_all_keeps (creds s)).
  - intros add_params n m r data access refresh Hrep Hok Hjson Herr Ha Hr res.
    destruct (authorize_success_run add_params (Machine s n m) r data
                access refresh) as (c & Ht & _ & Hc & Ha' & Hr' & _);
      [done..|].
    exists c. fold res in Ht, Ha', Hr'. by rewrite Ht.
Qed.

(** ** The pager *)

(** *** Runs and observations, piece by piece *)

Lemma trace_prepend {A} t (r : run A) : trace (prepend t r) = t ++ trace r.
Proof. reflexivity. Qed.

Lemma outcome_prepend {A} t (r : run A) : outcome (prepend t r) = outcome r.
Proof. reflexivity. Qed.


Lemma bind_run {A B} (m : M A) (f : A → M B) σ :
  bind m f σ =
    match outcome (m σ) with
    | Ok a => prepend (trace (m σ)) (f a (final (m σ)))
    | Raise e => Run (trace (m σ)) (Raise e) (final (m σ))
    end.
Proof.
  unfold bind, prepend. destruct (m σ) as [t [a|e] σ']; simpl; [|done].
  by destruct (f a σ').
Qed.

Lemma sleeps_app t1 t2 : sleeps (t1 ++ t2) = sleeps t1 ++ sleeps t2.
Proof. apply omap_app. Qed.

Lemma yielded_app t1 t2 : yielded (t1 ++ t2) = yielded t1 ++ yielded t2.
Proof. apply omap_app. Qed.

Lemma sent_offsets_app t1 t2 :
  sent_offsets (t1 ++ t2) = sent_offsets t1 ++ sent_offsets t2.
Proof. apply omap_app. Qed.

Lemma http_calls_app t1 t2 :
  http_calls (t1 ++ t2) = http_calls t1 ++ http_calls t2.
Proof. apply omap_app. Qed.

Lemma ensure_access_calls_app t1 t2 :
  ensure_access_calls (t1 ++ t2) =
    (ensure_access_calls t1 + ensure_access_calls t2)%nat.
Proof.
  unfold ensure_access_calls. by rewrite List.filter_app, length_app.
Qed.

Lemma consumer_events_observed t :
  forallb consumer_event t = true →
  sleeps t = [] ∧ ensure_access_calls t = 0%nat ∧ sent_offsets t = [].
Proof.
  induction t as [|ev t IH]; [done|]. simpl. intros [Hev Ht]%andb_prop.
  destruct (IH Ht) as (IH1 & IH2 & IH3).
  unfold sleeps, ensure_access_calls, sent_offsets in *.
  destruct ev; simpl in *; done.
Qed.

Lemma for_each_consumer on_item items σ :
  consumer on_item →
  forallb consumer_event (trace (for_each on_item items σ)) = true.
Proof.
  intros Hc. revert σ. induction items as [|x items IH]; intros σ; [done|].
  simpl. rewrite bind_run. specialize (Hc x σ).
  destruct (outcome (on_item x σ)); simpl; [|done].
  rewrite forallb_app, Hc. apply IH.
Qed.

Lemma yield_consumer : consumer yield.
Proof. by intros x σ. Qed.

Lemma on_art_consumer : consumer on_art.
Proof.
  intros x σ. unfold on_art. run_prims.
  destruct (is_None x); simpl; [done|].
  destruct (py_getitem x "author") as [author|]; simpl; [|done].
  destruct (py_getitem author "username"); simpl; [|done].
  destruct (py_getitem x "url"); simpl; [|done].
  by destruct (py_getitem x "deviationid").
Qed.

(** *** The three parts of a turn *)

Lemma throttled_facts rate params σ :
  let t := throttled rate params σ in
  yielded (trace t) = []
  ∧ sent_offsets (trace t) = []
  ∧ match outcome t with
    | Ok fl => fl = Continue (rate * 2) params ∧ sleeps (trace t) = [rate]
    | Raise _ => sleeps (trace t) = []
    end.
Proof.
  pose proof ensure_access_observed as Hguard.
  unfold throttled. set (guard := _ensure_access) in *. clearbody guard.
  run_prims.
  destruct (rate =? DEFAULT_RATE_LIMIT_TIMEOUT).
  - destruct (params !! "username") as [u|]; simpl; [|done].
    destruct (str_add _ u); simpl; [|done].
    by destruct (params !! "offset").
  - destruct (rate >? 64 * 10); [|done].
    destruct (Hguard σ) as (H1 & H2 & _ & H4).
    destruct (guard σ) as [t [[]|e] σ']; simpl in *; [|done].
    rewrite yielded_app, sent_offsets_app, sleeps_app, H1, H2, H4. done.
Qed.


Lemma unthrottled_facts url rate data σ :
  let t := unthrottled url rate data σ in
  sleeps (trace t) = []
  ∧ yielded (trace t) = []
  ∧ sent_offsets (trace t) = []
  ∧ ensure_access_calls (trace t) =
      (if rate =? DEFAULT_RATE_LIMIT_TIMEOUT then 0%nat else 1%nat)
  ∧ match outcome t with
    | Ok rate' => rate' = DEFAULT_RATE_LIMIT_TIMEOUT
    | Raise _ => True
    end.
Proof.
  pose proof ensure_access_observed as Hguard.
  unfold unthrottled. set (guard := _ensure_access) in *. clearbody guard.
  run_prims.
  destruct (rate =? DEFAULT_RATE_LIMIT_TIMEOUT) eqn:Hrate; simpl.
  - apply Z.eqb_eq in Hrate.
    destruct (py_in "error" data) as [[]|]; simpl; [| done..].
    by destruct (py_getitem data "error_description").
  - destruct (Hguard σ) as (H1 & H2 & H3 & H4).
    destruct (guard σ) as [t [[]|e] σ']; simpl in *; [|done].
    rewrite sleeps_app, yielded_app, sent_offsets_app,
      ensure_access_calls_app, H1, H2, H3, H4. done.
Qed.

Lemma deliver_facts on_item response data rate params σ :
  consumer on_item →
  let t := deliver on_item response data rate params σ in
  sleeps (trace t) = []
  ∧ ensure_access_calls (trace t) = 0%nat
  ∧ sent_offsets (trace t) = []
  ∧ match outcome t with
    | Ok Break => py_getitem data "has_more" = Ok (PBool false)
    | Ok (Continue rate' params') =>
        rate' = rate
        ∧ ∃ has_more next_offset,
            py_getitem data "has_more" = Ok has_more
            ∧ is_False has_more = false
            ∧ py_getitem data "next_offset" = Ok next_offset
            ∧ params' = <["offset" := next_offset]> params
    | Raise _ => True
    end.
Proof.
  intros Hc. unfold deliver.
  pose proof (for_each_consumer on_item) as Hitems.
  set (each := for_each on_item) in *. clearbody each.
  run_prims.
  destruct (ok response); simpl; [|done].
  destruct (py_getitem data "results") as [results|]; simpl; [|done].
  destruct (py_iter results) as [items|]; simpl; [|done].
  specialize (Hitems items σ Hc).
  destruct (consumer_events_observed _ Hitems) as (H1 & H2 & H3).
  destruct (each items σ) as [t [[]|e] σ']; simpl in *; [|done].
  destruct (py_getitem data "has_more") as [has_more|] eqn:Hmore; simpl.
  2: { by rewrite app_nil_r. }
  destruct (is_False has_more) eqn:Hfalse; simpl.
  - rewrite app_nil_r. repeat split; try done.
    by destruct has_more as [|[]| | | | |].
  - destruct (py_getitem data "next_offset") as [next|] eqn:Hnext; simpl;
      rewrite app_nil_r; repeat split; try done.
    by exists has_more, next.
Qed.

(** *** One turn *)

Section Turn.
Context (headers : gmap string string) (method url : string)
        (on_item : pyval → M unit).

Let request_of (params : gmap string pyval) : request :=
  Request method url params headers.

Lemma pager_turn_answer rate params r data σ :
  json r = Some data →
  pager_turn headers method url on_item rate params (Answer r) σ =
    prepend [EvHttp (request_of params) (Answer r)]
      (if status r =? 429 then throttled rate params σ
       else bind (unthrottled url rate data)
                 (λ rate', deliver on_item r data rate' params) σ).
Proof.
  intros Hjson.
  unfold pager_turn, exchange, response_json, emit, prepend, bind, ret.
  simpl. rewrite Hjson.
  destruct (status r =? 429).
  - by destruct (throttled rate params σ) as [t o σ'].
  - destruct (unthrottled url rate data σ) as [t [rate'|e] σ']; [|done].
    by destruct (deliver on_item r data rate' params σ') as [t' o' σ''].
Qed.

Lemma pager_turn_no_json rate params r σ :
  json r = None →
  pager_turn headers method url on_item rate params (Answer r) σ =
    Run [EvHttp (request_of params) (Answer r)] (Raise ContentError) σ.
Proof.
  intros Hjson.
  unfold pager_turn, exchange, response_json, emit, bind, ret, raise.
  simpl. by rewrite Hjson.
Qed.

Lemma pager_turn_no_answer rate params σ :
  pager_turn headers method url on_item rate params NoAnswer σ =
    Run [EvHttp (request_of params) NoAnswer]
        (Raise ClientConnectionError) σ.
Proof. reflexivity. Qed.

(** A turn sends one request, with the offset as it stands. *)
Lemma pager_turn_sent_offsets rate params rep σ o :
  consumer on_item →
  params !! "offset" = Some o →
  sent_offsets
    (trace (pager_turn headers method url on_item rate params rep σ)) = [o].
Proof.
  intros Hc Hoff. destruct rep as [r|].
  2: { rewrite pager_turn_no_answer. unfold sent_offsets. simpl.
       by rewrite Hoff. }
  destruct (json r) as [data|] eqn:Hjson.
  2: { rewrite pager_turn_no_json by done. unfold sent_offsets. simpl.
       by rewrite Hoff. }
  rewrite (pager_turn_answer _ _ _ data) by done.
  rewrite trace_prepend, sent_offsets_app.
  replace (sent_offsets [EvHttp (request_of params) (Answer r)]) with [o].
  2: { unfold sent_offsets. simpl. by rewrite Hoff. }
  destruct (status r =? 429).
  - destruct (throttled_facts rate params σ) as (_ & -> & _). done.
  - rewrite bind_run.
    destruct (unthrottled_facts url rate data σ) as (_ & _ & H3 & _).
    destruct (outcome (unthrottled url rate data σ)) as [rate'|].
    + rewrite trace_prepend, sent_offsets_app, H3.
      by destruct (deliver_facts on_item r data rate' params
                     (final (unthrottled url rate data σ)) Hc)
        as (_ & _ & -> & _).
    + simpl. by rewrite H3.
Qed.

(** How a turn can go on. *)
Lemma pager_turn_outcome rate params rep σ :
  consumer on_item →
  match outcome (pager_turn headers method url on_item rate params rep σ) with
  | Raise _ => True
  | Ok fl =>
      ∃ r data,
        rep = Answer r ∧ json r = Some data
        ∧ if status r =? 429 then fl = Continue (rate * 2) params
          else match fl with
               | Break => py_getitem data "has_more" = Ok (PBool false)
               | Continue rate' params' =>
                   rate' = DEFAULT_RATE_LIMIT_TIMEOUT
                   ∧ ∃ has_more next_offset,
                       py_getitem data "has_more" = Ok has_more
                       ∧ is_False has_more = false
                       ∧ py_getitem data "next_offset" = Ok next_offset
                       ∧ params' = <["offset" := next_offset]> params
               end
  end.
Proof.
  intros Hc. destruct rep as [r|]; [|done].
  destruct (json r) as [data|] eqn:Hjson.
  2: { by rewrite pager_turn_no_json. }
  rewrite (pager_turn_answer _ _ _ data) by done.
  rewrite outcome_prepend.
  destruct (status r =? 429) eqn:Hst.
  - destruct (throttled_facts rate params σ) as (_ & _ & H).
    destruct (outcome (throttled rate params σ)) as [fl|]; [|done].
    exists r, data. rewrite Hst. by destruct H.
  - rewrite bind_run.
    destruct (unthrottled_facts url rate data σ) as (_ & _ & _ & _ & H).
    destruct (outcome (unthrottled url rate data σ)) as [rate'|]; [|done].
    rewrite outcome_prepend. subst rate'.
    destruct (deliver_facts on_item r data DEFAULT_RATE_LIMIT_TIMEOUT params
                (final (unthrottled url rate data σ)) Hc)
      as (_ & _ & _ & H).
    destruct (outcome (deliver _ _ _ _ _ _)) as [fl|]; [|done].
    exists r, data. rewrite Hst. by destruct fl.
Qed.



End Turn.

(** *** The loop *)

Section Loop.
Context (headers : gmap string string) (method url : string)
        (on_item : pyval → M unit).

Local Abbreviation turn := (pager_turn headers method url on_item).
Local Abbreviation loop := (pager_loop headers method url on_item).
Local Abbreviation after := (after_turn headers method url on_item).

Lemma pager_loop_cons rate params rep replies σ :
  loop rate params (rep :: replies) σ =
    bind (turn rate params rep) (after replies) σ.
Proof. reflexivity. Qed.

(** More replies take the run on from where it was waiting. *)
Lemma pager_loop_app rate params replies more σ :
  loop rate params (replies ++ more) σ =
    let r := loop rate params replies σ in
    match outcome r with
    | Ok (Awaiting rate' params') =>
        prepend (trace r) (loop rate' params' more (final r))
    | _ => r
    end.
Proof.
  revert rate params σ.
  induction replies as [|rep replies IH]; intros rate params σ.
  - simpl. unfold prepend. simpl. by destruct (loop rate params more σ).
  - rewrite <- app_comm_cons, !pager_loop_cons, !bind_run. simpl.
    destruct (outcome (turn rate params rep σ)) as [[rate' params'|]|];
      simpl; [|done..].
    rewrite IH. simpl.
    destruct (outcome (loop rate' params' replies _))
      as [[|rate'' params'']|]; try done.
    unfold prepend. simpl. by rewrite app_assoc.
Qed.



End Loop.

(** *** Offsets *)

Lemma pager_initial_offset (params : gmap string pyval) :
  (<["mature_content" := PStr "true"]>
     (<["limit" := PInt 24]> (<["offset" := PInt 0]> params)))
    !! "offset" = Some (PInt 0).
Proof.
  rewrite !lookup_insert_ne by done. apply lookup_insert_eq.
Qed.


(** *** Backoff *)


Section Backoff.
Context (headers : gmap string string) (method url : string)
        (on_item : pyval → M unit) (Hc : consumer on_item).

Local Abbreviation turn := (pager_turn headers method url on_item).
Local Abbreviation loop := (pager_loop headers method url on_item).


End Backoff.


(** *** Long throttling *)

Lemma throttled_guard_calls rate params σ :
  ensure_access_calls (trace (throttled rate params σ)) =
    if rate >? 64 * 10 then 1%nat else 0%nat.
Proof.
  pose proof ensure_access_observed as Hguard.
  unfold throttled. set (guard := _ensure_access) in *. clearbody guard.
  run_prims.
  destruct (rate =? DEFAULT_RATE_LIMIT_TIMEOUT) eqn:Hrate.
  - apply Z.eqb_eq in Hrate. subst rate. simpl.
    destruct (params !! "username") as [u|]; simpl; [|done].
    destruct (str_add _ u); simpl; [|done].
    by destruct (params !! "offset").
  - destruct (rate >? 64 * 10); [|done].
    destruct (Hguard σ) as (_ & _ & H3 & _).
    destruct (guard σ) as [t [[]|e] σ']; simpl in *; [|done].
    by rewrite ensure_access_calls_app, H3.
Qed.


(** *** Where the cursor goes, and where the run ends *)

Section Cursor.
Context (headers : gmap string string) (method url : string)
        (on_item : pyval → M unit) (Hc : consumer on_item).

Local Abbreviation turn := (pager_turn headers method url on_item).
Local Abbreviation loop := (pager_loop headers method url on_item).

(** What a turn that goes on says about its reply. *)
Lemma pager_turn_continue rate params rep σ rate' params' :
  outcome (turn rate params rep σ) = Ok (Continue rate' params') →
  reports_end rep = false
  ∧ match served_cursor rep with
    | Some next_offset => params' = <["offset" := next_offset]> params
    | None => params' = params
    end.
Proof.
  intros Hrun.
  pose proof (pager_turn_outcome headers method url on_item rate params
                rep σ Hc) as Hout.
  rewrite Hrun in Hout. destruct Hout as (r & data & -> & Hjson & Hfl).
  simpl. rewrite Hjson. destruct (status r =? 429); simpl.
  - by injection Hfl as _ ->.
  - destruct Hfl as (_ & has_more & next & -> & Hf & -> & ->).
    by rewrite Hf.
Qed.

Lemma pager_turn_break rate params rep σ :
  outcome (turn rate params rep σ) = Ok Break → reports_end rep = true.
Proof.
  intros Hrun.
  pose proof (pager_turn_outcome headers method url on_item rate params
                rep σ Hc) as Hout.
  rewrite Hrun in Hout. destruct Hout as (r & data & -> & Hjson & Hfl).
  simpl. rewrite Hjson. destruct (status r =? 429); [done|].
  by rewrite Hfl.
Qed.

Lemma pager_loop_nondecreasing replies :
  ∀ rate params σ o lo,
    params !! "offset" = Some (PInt o) →
    lo ≤ o →
    nondecreasing_from o (served_cursors replies) = true →
    nondecreasing_from lo
      (sent_offsets (trace (loop rate params replies σ))) = true.
Proof.
  induction replies as [|rep replies IH];
    intros rate params σ o lo Hoff Hlo Hsorted; [done|].
  rewrite pager_loop_cons, bind_run.
  pose proof (pager_turn_sent_offsets headers method url on_item rate
                params rep σ (PInt o) Hc Hoff) as Hsent.
  assert ((lo <=? o) = true) as Hle by lia.
  destruct (outcome (turn rate params rep σ)) as [fl|] eqn:Hrun.
  2: { simpl. rewrite Hsent. simpl. by rewrite Hle. }
  rewrite trace_prepend, sent_offsets_app, Hsent. simpl. rewrite Hle. simpl.
  destruct fl as [rate' params'|]; simpl; [|done].
  apply pager_turn_continue in Hrun as [_ Hnext].
  unfold served_cursors in Hsorted. simpl in Hsorted.
  destruct (served_cursor rep) as [next|]; subst params'.
  - simpl in Hsorted. destruct next as [| |z| | | |]; try done.
    apply andb_prop in Hsorted as [Hz Hsorted].
    apply (IH _ _ _ z); [apply lookup_insert_eq|lia|done].
  - by apply (IH _ _ _ o).
Qed.

(** An exhausted run stopped at the first reply that reports the end. *)
Lemma pager_loop_exhausted replies :
  ∀ rate params σ,
    outcome (loop rate params replies σ) = Ok Exhausted →
    ∃ pre rep post,
      replies = pre ++ rep :: post
      ∧ reports_end rep = true
      ∧ forallb (λ x, negb (reports_end x)) pre = true
      ∧ loop rate params replies σ = loop rate params (pre ++ [rep]) σ.
Proof.
  induction replies as [|rep replies IH]; intros rate params σ; [done|].
  rewrite pager_loop_cons, bind_run.
  destruct (outcome (turn rate params rep σ)) as [fl|] eqn:Hrun; [|done].
  rewrite outcome_prepend. destruct fl as [rate' params'|]; simpl.
  - intros Hrest. apply pager_turn_continue in Hrun as Hrep.
    destruct Hrep as [Hrep _].
    destruct (IH _ _ _ Hrest) as (pre & rep' & post & -> & Hend & Hpre & Heq).
    exists (rep :: pre), rep', post.
    split; [done|]. split; [done|]. split; [by simpl; rewrite Hrep|].
    rewrite <- app_comm_cons, pager_loop_cons, bind_run, Hrun.
    unfold after_turn. by rewrite Heq.
  - intros _. apply pager_turn_break in Hrun as Hrep.
    exists [], rep, replies. repeat split; try done.
    rewrite app_nil_l. by rewrite pager_loop_cons, bind_run, Hrun.
Qed.

(** No request follows a reply that reports the end. *)
Lemma pager_loop_stops rep :
  reports_end rep = true →
  ∀ pre post rate params σ,
    loop rate params (pre ++ rep :: post) σ =
      loop rate params (pre ++ [rep]) σ
    ∧ ∀ rate' params',
        outcome (loop rate params (pre ++ [rep]) σ) ≠
          Ok (Awaiting rate' params').
Proof.
  intros Hrep pre post rate params σ. rewrite !pager_loop_app. cbv zeta.
  destruct (outcome (loop rate params pre σ))
    as [[|rate0 params0]|] eqn:Hpre; try by rewrite Hpre.
  rewrite outcome_prepend, !pager_loop_cons, !bind_run.
  destruct (outcome (turn rate0 params0 rep _)) as [fl|] eqn:Hrun; [|done].
  destruct fl as [rate1 params1|]; [|done].
  apply pager_turn_continue in Hrun as [Hno _]. congruence.
Qed.
End Cursor.

(** C8, as the code has it. The run takes its offsets from the server: if
    the cursors the server hands out are integers that never go down from
    0, neither do the offsets of the run's requests. The run is exhausted
    only at the first response that is readable, is not a 429 and reports
    [has_more] false, and no request is sent after such a response. *)
Theorem pager_offsets_nondecreasing headers method url params on_item
    replies σ :
  consumer on_item →
  nondecreasing_from 0 (served_cursors replies) = true →
  let res := _pager headers method url params on_item replies σ in
  nondecreasing_from 0 (sent_offsets (trace res)) = true
  ∧ (outcome res = Ok Exhausted →
     ∃ pre rep post,
       replies = pre ++ rep :: post
       ∧ reports_end rep = true
       ∧ forallb (λ x, negb (reports_end x)) pre = true
       ∧ res = _pager headers method url params on_item (pre ++ [rep]) σ)
  ∧ (∀ pre rep post,
       reports_end rep = true →
       _pager headers method url params on_item (pre ++ rep :: post) σ =
         _pager headers method url params on_item (pre ++ [rep]) σ
       ∧ ∀ rate' params',
           outcome (_pager headers method url params on_item
                           (pre ++ [rep]) σ) ≠
             Ok (Awaiting rate' params')).
Proof.
  intros Hc Hsorted res. subst res. unfold _pager. repeat split.
  - apply (pager_loop_nondecreasing _ _ _ _ Hc _ _ _ _ 0);
      [apply pager_initial_offset|lia|done].
  - by apply pager_loop_exhausted.
  - by apply pager_loop_stops.
  - by apply pager_loop_stops.
Qed.

(** *** Pages *)

Lemma for_each_yield items σ :
  for_each yield items σ = Run (EvYield <$> items) (Ok tt) σ.
Proof.
  induction items as [|x items IH]; [done|].
  simpl. rewrite bind_run. simpl. by rewrite IH.
Qed.




(** ** Listing a folder *)





Lemma yielded_yields items : yielded (EvYield <$> items) = items.
Proof.
  induction items as [|x t IH]; [done|].
  change (x :: yielded (EvYield <$> t) = x :: t). by rewrite IH.
Qed.












(** ** The rest of the facade *)

(** *** Strings *)

(** [str.lower], the method of the interpreter, with the tables of
    characters it works from. *)
Variable str_lower : string → string.

Fixpoint string_map (f : ascii → ascii) (s : string) : string :=
  match s with
  | EmptyString => EmptyString
  | String c s' => String (f c) (string_map f s')
  end.

(** [s.replace(' ', '-')] *)
Definition replace_spaces (s : string) : string :=
  string_map (λ c, if Ascii.eqb c " "%char then "-"%char else c) s.

(** [v.lower()]: a method of strings. *)
Definition py_lower (v : pyval) : result string :=
  match v with
  | PStr s => Ok (str_lower s)
  | _ => Raise AttributeError
  end.

(** [v is True] *)
Definition is_True (v : pyval) : bool :=
  match v with PBool true => true | _ => false end.

(** *** Folders *)

(** The body of [list_folders]'s [async for]. *)
Definition on_folder (folder : pyval) : M unit :=
  let* name := lift (py_getitem folder "name") in
  let* has_subfolders := lift (py_getitem folder "has_subfolders") in
  (if is_True has_subfolders then
     print [PStr "Folder"; name;
            PStr "has subfolders, but this feature currently not supported"]
   else ret tt) >>
  let* folderid := lift (py_getitem folder "folderid") in
  let* lowered := lift (py_lower name) in
  yield (PDict [("id", folderid);
                ("name", PStr (replace_spaces lowered));
                ("pretty_name", name)]).

(** [list_folders(username)], drained by its caller. *)
Definition list_folders (username : string) (replies : list reply)
  : M pager_end :=
  _ensure_access >>
  let params : gmap string pyval := {[ "username" := PStr username ]} in
  let url := String.append API_URL "/gallery/folders" in
  let* s := get_self in
  let* headers := lift (_headers s) in
  _pager headers "GET" url params on_folder replies.

(** *** Single lookups *)

(** [get_download(deviationid)], on the reply to its request. *)
Definition get_download (deviationid : string) (rep : reply) : M pyval :=
  _ensure_access >>
  let url :=
    String.append API_URL (String.append "/deviation/download/" deviationid) in
  let* s := get_self in
  let* headers := lift (_headers s) in
  let* response := exchange (Request "GET" url ∅ headers) rep in
  let* data := response_json response in
  let* has_error := lift (py_in "error" data) in
  if has_error then
    let* description := lift (py_getitem data "error_description") in
    print [PStr "Error when getting download link:"; description] >>
    ret PNone
  else lift (py_getitem data "src").

(** How a lookup over the replies received so far ends: it has returned, or
    it is suspended in [session.get] with its wait as it is. *)
Inductive lookup_end : Type :=
| Returned (v : pyval)
| Waiting (_rate_limit_sec : Z).

(** [get_art_info(deviationid, _rate_limit_sec)], over the replies the
    sessions of the nested calls give to their requests. Every call, the
    nested ones too, starts with the guard and opens its own session. (The
    interpreter's bound on nested calls is not part of the model.) *)
Fixpoint get_art_info (deviationid : string) (_rate_limit_sec : Z)
    (replies : list reply) : M lookup_end :=
  _ensure_access >>
  let url := String.append API_URL (String.append "/deviation/" deviationid) in
  let* s := get_self in
  let* headers := lift (_headers s) in
  match replies with
  | [] => ret (Waiting _rate_limit_sec)
  | rep :: replies' =>
      let* response := exchange (Request "GET" url ∅ headers) rep in
      if status response =? 429 then
        print_inline [PStr "Rate limit reached, spleeping for";
                      PInt _rate_limit_sec; PStr "seconds"] >>
        sleep _rate_limit_sec >>
        get_art_info deviationid (_rate_limit_sec * 2) replies'
      else
        (if _rate_limit_sec >? DEFAULT_RATE_LIMIT_TIMEOUT then print []
         else ret tt) >>
        let* data := response_json response in
        let* has_error := lift (py_in "error" data) in
        if has_error then
          let* description := lift (py_getitem data "error_description") in
          print [PStr "Error when getting art info:"; description] >>
          ret (Returned PNone)
        else ret (Returned data)
  end.

(** ** More on credentials *)

Lemma dict_get_pop_ne k k' d :
  k ≠ k' → dict_get k (dict_pop k' d) = dict_get k d.
Proof.
  intros Hne. apply String.eqb_neq in Hne.
  induction d as [|[k'' v''] d IH]; simpl; [done|].
  destruct (String.eqb k' k'') eqn:E; simpl.
  - apply String.eqb_eq in E as <-. by rewrite Hne.
  - by rewrite IH.
Qed.

Lemma dict_set_not_nil k v d : dict_set k v d ≠ [].
Proof. destruct d as [|[k' v'] d]; simpl; [done|]. by destruct (String.eqb k k'). Qed.

(** X1. The constructor never raises its own "Not authorized": when
    [get_creds()] gives nothing (None, an empty dict, anything false) it
    fails on the lookup of the slug, with a [KeyError]. *)
Theorem init_without_creds stored :
  __init__ stored ≠ Raise (Exception "Not authorized")
  ∧ if py_truthy stored then True
    else __init__ stored = Raise (KeyError SLUG).
Proof.
  split.
  - unfold __init__.
    assert (is_None (if py_truthy stored then stored else PDict []) = false)
      as ->.
    { destruct (py_truthy stored) eqn:E; [|done]. by destruct stored. }
    simpl.
    set (c := if py_truthy stored then stored else PDict []).
    assert (∀ v k, py_getitem v k ≠ Raise (Exception "Not authorized")) as Hget.
    { intros v k. destruct v as [| | | | | |d]; try done. simpl.
      by destruct (dict_get k d). }
    assert (∀ v k, py_get v k ≠ Raise (Exception "Not authorized")) as Hget'.
    { intros v k. by destruct v. }
    destruct (py_getitem c SLUG) as [by_slug|] eqn:E1; simpl;
      [|intros [= ->]; exact (Hget _ _ E1)].
    destruct (py_getitem by_slug "client_id") eqn:E2; simpl;
      [|intros [= ->]; exact (Hget _ _ E2)].
    destruct (py_getitem by_slug "client_secret") eqn:E3; simpl;
      [|intros [= ->]; exact (Hget _ _ E3)].
    destruct (py_getitem by_slug OAUTH_KEY) as [oauth|] eqn:E4; simpl;
      [|intros [= ->]; exact (Hget _ _ E4)].
    destruct (py_get oauth "code") eqn:E5; simpl;
      [|intros [= ->]; exact (Hget' _ _ E5)].
    destruct (py_get oauth "access_token") eqn:E6; simpl;
      [|intros [= ->]; exact (Hget' _ _ E6)].
    destruct (py_get oauth "refresh_token") eqn:E7; simpl;
      [done|intros [= ->]; exact (Hget' _ _ E7)].
  - destruct (py_truthy stored) eqn:E; [done|].
    unfold __init__. by rewrite E.
Qed.

(** What [__init__] has read when it succeeds. *)
Lemma init_reads stored s :
  __init__ stored = Ok s →
  ∃ creds_items slug_items oauth_items,
    creds s = PDict creds_items
    ∧ dict_get SLUG creds_items = Some (PDict slug_items)
    ∧ dict_get "client_id" slug_items = Some (client_id s)
    ∧ dict_get "client_secret" slug_items = Some (client_secret s)
    ∧ dict_get OAUTH_KEY slug_items = Some (PDict oauth_items)
    ∧ code s = default PNone (dict_get "code" oauth_items)
    ∧ access_token s = default PNone (dict_get "access_token" oauth_items)
    ∧ refresh_token s = default PNone (dict_get "refresh_token" oauth_items).
Proof.
  unfold __init__. set (c := if py_truthy stored then stored else PDict []).
  destruct (is_None c); simpl; [done|].
  destruct c as [| | | | | |creds_items]; try done. simpl.
  destruct (dict_get SLUG creds_items) as [by_slug|] eqn:E1; simpl; [|done].
  destruct by_slug as [| | | | | |slug_items]; try done. simpl.
  destruct (dict_get "client_id" slug_items) as [cid|] eqn:E2; simpl; [|done].
  destruct (dict_get "client_secret" slug_items) as [sec|] eqn:E3; simpl;
    [|done].
  destruct (dict_get OAUTH_KEY slug_items) as [oauth|] eqn:E4; simpl; [|done].
  destruct oauth as [| | | | | |oauth_items]; try done. simpl.
  intros [= <-]. simpl. exists creds_items, slug_items, oauth_items.
  repeat split; try done;
    by match goal with |- context [dict_get ?k oauth_items] =>
         destruct (dict_get k oauth_items) end.
Qed.

(** X2. Saving and loading again: what [_save_tokens] writes for a service
    that [__init__] built, whatever its two tokens are by now, is read back
    by [__init__] as a service with the same client id and secret and the
    same two tokens, and without a code. The key of the OAuth material must
    not be that of the client id or secret. *)
Theorem saved_creds_load_back stored s access refresh n m :
  __init__ stored = Ok s →
  OAUTH_KEY ≠ "client_id" →
  OAUTH_KEY ≠ "client_secret" →
  let σ := Machine (Service (creds s) (client_id s) (client_secret s)
                            (code s) access refresh) n m in
  ∃ c, _save_tokens σ = Run [EvSaveCreds c] (Ok tt) σ
       ∧ __init__ c = Ok (Service c (client_id s) (client_secret s) PNone
                                  access refresh).
Proof.
  intros Hinit Hid Hsecret σ.
  destruct (init_reads _ _ Hinit)
    as (creds_items & slug_items & oauth_items & Hc & H1 & H2 & H3 & H4 & _).
  unfold _save_tokens. run_prims. rewrite Hc. simpl. rewrite H1. simpl.
  rewrite H4. simpl. eexists. split; [done|].
  unfold __init__. simpl.
  destruct (dict_set SLUG _ creds_items) eqn:E.
  { by apply dict_set_not_nil in E. }
  rewrite <- E. clear E. simpl. rewrite dict_get_set_eq. simpl.
  rewrite !dict_get_set_ne by done. rewrite H2, H3. simpl.
  rewrite dict_get_set_eq. simpl.
  rewrite !dict_get_set_ne by done. rewrite dict_get_pop_eq.
  rewrite dict_get_set_eq.
  by rewrite ?dict_get_set_eq.
Qed.

(** X3. [_save_tokens] touches nothing else: in the value it saves, the
    entries of other slugs, the other items of this slug (client id and
    secret among them) and the other items of the OAuth material are those
    of [self.creds]; and the service is left as it was. *)
Theorem save_tokens_keeps_the_rest σ :
  creds_wf (creds (self σ)) →
  ∃ c, _save_tokens σ = Run [EvSaveCreds c] (Ok tt) σ
       ∧ (∀ k, k ≠ SLUG → py_getitem c k = py_getitem (creds (self σ)) k)
       ∧ (∀ k, k ≠ OAUTH_KEY →
            rbind (py_getitem c SLUG) (λ by_slug, py_getitem by_slug k) =
            rbind (py_getitem (creds (self σ)) SLUG)
                  (λ by_slug, py_getitem by_slug k))
       ∧ (∀ k, k ≠ "code" → k ≠ "access_token" → k ≠ "refresh_token" →
            oauth_item c k = oauth_item (creds (self σ)) k).
Proof.
  intros (by_slug & oauth_items & H1 & H2).
  unfold _save_tokens, oauth_item. run_prims. rewrite H1; simpl.
  rewrite H2; simpl.
  destruct by_slug as [| | | | | |slug_items]; try done.
  destruct (creds (self σ)) as [| | | | | |creds_items]; try done.
  simpl in *. eexists. split; [done|]. simpl.
  destruct (dict_get SLUG creds_items) as [x|] eqn:E1; [|done].
  injection H1 as ->.
  destruct (dict_get OAUTH_KEY slug_items) as [x|] eqn:E2; [|done].
  injection H2 as ->.
  repeat split.
  - intros k Hk. by rewrite dict_get_set_ne.
  - intros k Hk. rewrite dict_get_set_eq. simpl. by rewrite dict_get_set_ne.
  - intros k Hcode Ha Hr. rewrite dict_get_set_eq. simpl.
    rewrite dict_get_set_eq. simpl.
    by rewrite !dict_get_set_ne, dict_get_pop_ne.
Qed.

(** ** More on [_authorize] *)

(** X4. An [error] member in the body of the token endpoint's response is
    fatal whatever the HTTP status, 200 included: nothing is applied or
    saved; with a description the message is printed and the program exits
    with status 1, without one the lookup's exception comes out and nothing
    is printed. *)
Theorem authorize_error_member_is_fatal add_params σ r data :
  token_replies (token_seen σ) = Answer r →
  json r = Some data →
  py_in "error" data = Ok true →
  let res := _authorize add_params σ in
  self (final res) = self σ
  ∧ saved_creds (trace res) = []
  ∧ match py_getitem data "error_description" with
    | Ok description =>
        outcome res = Raise (SystemExit 1)
        ∧ printed (trace res) = [[PStr authorization_error_msg; description]]
    | Raise e => outcome res = Raise e ∧ printed (trace res) = []
    end.
Proof.
  intros Hrep Hjson Herr. run_auth.
  rewrite Hrep; simpl. rewrite Hjson; simpl. rewrite Herr; simpl.
  by destruct (py_getitem data "error_description").
Qed.

(** X5. A successful response that has an [access_token] but no
    [refresh_token]: the lookup fails after the service's access token has
    been replaced, so the service is left with the new access token next to
    the refresh token it had, and nothing is saved. *)
Theorem authorize_missing_refresh_token add_params σ r data access :
  token_replies (token_seen σ) = Answer r →
  ok r = true →
  json r = Some data →
  py_in "error" data = Ok false →
  py_getitem data "access_token" = Ok access →
  py_getitem data "refresh_token" = Raise (KeyError "refresh_token") →
  let res := _authorize add_params σ in
  outcome res = Raise (KeyError "refresh_token")
  ∧ saved_creds (trace res) = []
  ∧ access_token (self (final res)) = access
  ∧ refresh_token (self (final res)) = refresh_token (self σ).
Proof.
  intros Hrep Hok Hjson Herr Ha Hr. run_auth.
  rewrite Hrep; simpl. rewrite Hjson; simpl. rewrite Herr; simpl.
  rewrite Hok, Ha; simpl. by rewrite Hr.
Qed.

(** ** The facade without authorization *)

Lemma get_art_info_unfold deviationid rate replies :
  get_art_info deviationid rate replies =
    (_ensure_access >>
     let url := String.append API_URL (String.append "/deviation/" deviationid) in
     let* s := get_self in
     let* headers := lift (_headers s) in
     match replies with
     | [] => ret (Waiting rate)
     | rep :: replies' =>
         let* response := exchange (Request "GET" url ∅ headers) rep in
         if status response =? 429 then
           print_inline [PStr "Rate limit reached, spleeping for";
                         PInt rate; PStr "seconds"] >>
           sleep rate >>
           get_art_info deviationid (rate * 2) replies'
         else
           (if rate >? DEFAULT_RATE_LIMIT_TIMEOUT then print [] else ret tt) >>
           let* data := response_json response in
           let* has_error := lift (py_in "error" data) in
           if has_error then
             let* description := lift (py_getitem data "error_description") in
             print [PStr "Error when getting art info:"; description] >>
             ret (Returned PNone)
           else ret (Returned data)
     end).
Proof. by destruct replies. Qed.

(** Every operation of the facade starts with the guard, and ends with it
    when the guard fails. *)
Lemma facade_guard_fails σ e :
  outcome (_ensure_access σ) = Raise e →
  (∀ username replies,
     list_folders username replies σ =
       Run (trace (_ensure_access σ)) (Raise e) (final (_ensure_access σ)))
  ∧ (∀ username folder replies,
       list_folder_arts username folder replies σ =
         Run (trace (_ensure_access σ)) (Raise e) (final (_ensure_access σ)))
  ∧ (∀ deviationid rep,
       get_download deviationid rep σ =
         Run (trace (_ensure_access σ)) (Raise e) (final (_ensure_access σ)))
  ∧ (∀ deviationid rate replies,
       get_art_info deviationid rate replies σ =
         Run (trace (_ensure_access σ)) (Raise e) (final (_ensure_access σ))).
Proof.
  intros Hguard. repeat split; intros;
    rewrite ?get_art_info_unfold;
    unfold list_folders, list_folder_arts, get_download;
    rewrite bind_run, Hguard; by destruct (_ensure_access σ).
Qed.

(** X6. A service that holds neither a refresh token nor a code cannot be
    used: each of the four operations prints "Authorize app first" and
    exits with status 1, before any request is sent and without touching
    the service. *)
Theorem facade_needs_authorization σ :
  is_None (refresh_token (self σ)) = true →
  is_None (code (self σ)) = true →
  let stop {A} : run A :=
    Run [EvEnsureAccess; EvPrint [PStr "Authorize app first"]]
        (Raise (SystemExit 1)) σ in
  (∀ username replies, list_folders username replies σ = stop)
  ∧ (∀ username folder replies,
       list_folder_arts username folder replies σ = stop)
  ∧ (∀ deviationid rep, get_download deviationid rep σ = stop)
  ∧ (∀ deviationid rate replies,
       get_art_info deviationid rate replies σ = stop).
Proof.
  intros Hrefresh Hcode.
  assert (_ensure_access σ =
          Run [EvEnsureAccess; EvPrint [PStr "Authorize app first"]]
              (Raise (SystemExit 1)) σ) as Hguard.
  { run_auth. rewrite Hrefresh. simpl. by rewrite Hcode. }
  destruct (facade_guard_fails σ (SystemExit 1)) as (H1 & H2 & H3 & H4).
  { by rewrite Hguard. }
  rewrite Hguard in *. by repeat split.
Qed.

(** X7. A code the server rejects as invalid does not stop a first use of
    the service cleanly: [_authorize] prints "Please authorize again" and
    returns, the guard returns, and the operation goes on to build its
    header from an access token that is not there, which is a [TypeError];
    no request of the operation itself is sent. *)
Theorem invalid_code_then_type_error σ r data :
  is_None (refresh_token (self σ)) = true →
  is_None (code (self σ)) = false →
  access_token (self σ) = PNone →
  token_replies (token_seen σ) = Answer r →
  ok r = false →
  json r = Some data →
  py_in "error" data = Ok false →
  py_getitem data "error_description" = Ok (PStr INVALID_CODE_MSG) →
  let crash {A} : run A :=
    Run [EvEnsureAccess;
         EvHttp (token_request (code_grant (self σ)) (self σ)) (Answer r);
         EvPrint [PStr "Please authorize again"]]
        (Raise TypeError)
        (Machine (self σ) (placebo_seen σ) (S (token_seen σ))) in
  (∀ username replies, list_folders username replies σ = crash)
  ∧ (∀ username folder replies,
       list_folder_arts username folder replies σ = crash)
  ∧ (∀ deviationid rep, get_download deviationid rep σ = crash)
  ∧ (∀ deviationid rate replies,
       get_art_info deviationid rate replies σ = crash).
Proof.
  intros Hrefresh Hcode Haccess Hrep Hok Hjson Herr Hdescr.
  assert (_ensure_access σ =
          Run [EvEnsureAccess;
               EvHttp (token_request (code_grant (self σ)) (self σ)) (Answer r);
               EvPrint [PStr "Please authorize again"]]
              (Ok tt)
              (Machine (self σ) (placebo_seen σ) (S (token_seen σ))))
    as Hguard.
  { pose proof (authorize_failure_run (code_grant (self σ)) σ r data
                  Hrep Hok Hjson Herr) as Hauth.
    rewrite Hdescr in Hauth. simpl in Hauth.
    unfold _ensure_access, _fetch_access_token, code_grant in *.
    set (authorize := _authorize) in *. clearbody authorize.
    run_prims. rewrite Hrefresh. simpl. rewrite Hcode. simpl.
    by rewrite Hauth. }
  repeat split; intros;
    rewrite ?get_art_info_unfold;
    unfold list_folders, list_folder_arts, get_download;
    rewrite bind_run, Hguard; simpl;
    rewrite bind_run; simpl; rewrite bind_run; simpl;
    unfold _headers, _auth_header; simpl; by rewrite Haccess.
Qed.

(** ** What a service never changes *)

(** The part of the service that was read from the stored credentials and
    is not a token. *)
Definition same_client (s0 : DAService) (σ : machine) : Prop :=
  creds (self σ) = creds s0
  ∧ client_id (self σ) = client_id s0
  ∧ client_secret (self σ) = client_secret s0
  ∧ code (self σ) = code s0.

Definition any_event (ev : event) : Prop := True.

(** The operations of the facade. *)
Inductive use : Type :=
| UseListFolders (username : string) (replies : list reply)
| UseListFolderArts (username folder : string) (replies : list reply)
| UseGetDownload (deviationid : string) (rep : reply)
| UseGetArtInfo (deviationid : string) (replies : list reply).

Definition run_use (u : use) : M unit :=
  match u with
  | UseListFolders username replies => list_folders username replies >> ret tt
  | UseListFolderArts username folder replies =>
      list_folder_arts username folder replies >> ret tt
  | UseGetDownload deviationid rep => get_download deviationid rep >> ret tt
  | UseGetArtInfo deviationid replies =>
      get_art_info deviationid DEFAULT_RATE_LIMIT_TIMEOUT replies >> ret tt
  end.

(** Operations run one after the other on one service object, by a caller
    that carries on after an exception. *)
Fixpoint run_uses (us : list use) (σ : machine) : list event * machine :=
  match us with
  | [] => ([], σ)
  | u :: us' =>
      let r := run_use u σ in
      let rest := run_uses us' (final r) in
      (trace r ++ rest.1, rest.2)
  end.

Section SameClient.
Context (s0 : DAService).

Local Abbreviation same := (keeps (same_client s0) any_event).

Lemma same_state {A} (m : M A) :
  (∀ σ, self (final (m σ)) = self σ) → same m.
Proof.
  intros Hm σ Hσ. split.
  - unfold same_client. by rewrite Hm.
  - apply Forall_forall. by intros.
Qed.

Lemma same_token (v : pyval) :
  same (set_access_token v) ∧ same (set_refresh_token v).
Proof.
  split; intros σ Hσ; (split; [exact Hσ|constructor]).
Qed.

Ltac same_step :=
  first
    [ keeps_step
    | apply same_token
    | apply same_state; intros ?; reflexivity
    | done ].

Lemma authorize_same add_params : same (_authorize add_params).
Proof.
  unfold _authorize, _save_tokens, exchange, response_json, print, quit.
  repeat same_step.
Qed.

Lemma ensure_access_same : same _ensure_access.
Proof.
  pose proof authorize_same as Hauth.
  unfold _ensure_access, _fetch_access_token, _refresh_token, exchange,
    response_json, print, quit.
  set (authorize := _authorize) in *. clearbody authorize.
  repeat same_step.
Qed.

Lemma pager_loop_same headers method url on_item replies :
  (∀ x, same (on_item x)) →
  ∀ rate params, same (pager_loop headers method url on_item rate params replies).
Proof.
  intros Hitem. pose proof ensure_access_same as Hguard.
  set (guard := _ensure_access) in *. 
  induction replies as [|rep replies IH]; intros rate params; simpl.
  - apply keeps_ret.
  - apply keeps_bind.
    + unfold pager_turn, throttled, unthrottled, deliver, exchange,
        response_json, raise_for_status, print, print_inline, sleep, quit.
      fold guard. clearbody guard.
      repeat same_step.
    + intros [rate' params'|]; [apply IH|apply keeps_ret].
Qed.

Lemma on_art_same art : same (on_art art).
Proof. unfold on_art, yield. repeat same_step. Qed.

Lemma on_folder_same folder : same (on_folder folder).
Proof. unfold on_folder, yield, print. repeat same_step. Qed.

Lemma get_art_info_same deviationid replies :
  ∀ rate, same (get_art_info deviationid rate replies).
Proof.
  pose proof ensure_access_same as Hguard.
  induction replies as [|rep replies IH]; intros rate;
    rewrite get_art_info_unfold;
    set (guard := _ensure_access) in *; clearbody guard;
    unfold exchange, response_json, print, print_inline, sleep;
    repeat same_step.
Qed.

Lemma run_use_same u : same (run_use u).
Proof.
  pose proof ensure_access_same as Hguard.
  pose proof pager_loop_same as Hloop.
  pose proof on_art_same as Hart.
  pose proof on_folder_same as Hfolder.
  pose proof get_art_info_same as Hinfo.
  destruct u; simpl.
  - unfold list_folders, _pager.
    set (guard := _ensure_access) in *. clearbody guard.
    repeat same_step. by apply Hloop.
  - unfold list_folder_arts, _pager.
    set (guard := _ensure_access) in *. clearbody guard.
    repeat same_step. by apply Hloop.
  - unfold get_download, exchange, response_json, print.
    set (guard := _ensure_access) in *. clearbody guard.
    repeat same_step.
  - apply keeps_bind; [apply Hinfo|]. intros ?. apply keeps_ret.
Qed.
End SameClient.

(** X8. Whatever operations are run on a service, and however they end,
    the credentials it read at construction, its client id, its client
    secret and its code stay as they were: only the two tokens of the
    object ever change, and a used code is never cleared from it. *)
Theorem client_never_changes us σ :
  let σ' := (run_uses us σ).2 in
  creds (self σ') = creds (self σ)
  ∧ client_id (self σ') = client_id (self σ)
  ∧ client_secret (self σ') = client_secret (self σ)
  ∧ code (self σ') = code (self σ).
Proof.
  cbv zeta.
  assert (∀ s0 τ, same_client s0 τ → same_client s0 (run_uses us τ).2) as H.
  { intros s0. induction us as [|u us IH]; intros τ Hτ; [done|].
    simpl. apply IH. by apply (run_use_same s0 u τ). }
  by apply (H (self σ) σ).
Qed.

(** ** How a run of the pager ends badly *)

(** The requests of a trace that carry an [offset]: those of the pager, as
    opposed to those of the guard. *)
Definition pager_requests (t : list event) : list request :=
  List.filter
    (λ req, match req_params req !! "offset" with
            | Some _ => true
            | None => false
            end)
    (http_calls t).

Lemma pager_requests_app t1 t2 :
  pager_requests (t1 ++ t2) = pager_requests t1 ++ pager_requests t2.
Proof. unfold pager_requests. by rewrite http_calls_app, List.filter_app. Qed.

Lemma pager_requests_quiet t : sent_offsets t = [] → pager_requests t = [].
Proof.
  induction t as [|ev t IH]; [done|].
  destruct ev; try exact IH.
  unfold pager_requests, sent_offsets in *. simpl.
  by destruct (req_params req !! "offset").
Qed.

Section Edges.
Context (headers : gmap string string) (method url : string)
        (on_item : pyval → M unit).

Local Abbreviation turn := (pager_turn headers method url on_item).
Local Abbreviation after := (after_turn headers method url on_item).

(** The next reply is handled from where the run was waiting. *)
Lemma pager_next params replies rep more σ rate params' :
  let before := _pager headers method url params on_item replies σ in
  outcome before = Ok (Awaiting rate params') →
  _pager headers method url params on_item (replies ++ rep :: more) σ =
    prepend (trace before)
      (bind (turn rate params' rep) (after more) (final before)).
Proof.
  cbv zeta. unfold _pager. intros Hbefore.
  rewrite pager_loop_app. cbv zeta. by rewrite Hbefore.
Qed.

Lemma not_429 r : status r ≠ 429 → (status r =? 429) = false.
Proof. intros. by apply Z.eqb_neq. Qed.

(** X9. With the wait at its default, a readable response that is not a
    429 and has an [error] member with a description ends the program with
    status 1, whatever its HTTP status and whatever else its body holds:
    the description is the last thing printed, nothing of the response is
    yielded, and the replies after it are never asked for. *)
Theorem pager_error_member_exits params replies r data description more σ
    params' :
  let before := _pager headers method url params on_item replies σ in
  let res := _pager headers method url params on_item
               (replies ++ Answer r :: more) σ in
  outcome before = Ok (Awaiting DEFAULT_RATE_LIMIT_TIMEOUT params') →
  status r ≠ 429 →
  json r = Some data →
  py_in "error" data = Ok true →
  py_getitem data "error_description" = Ok description →
  outcome res = Raise (SystemExit 1)
  ∧ yielded (trace res) = yielded (trace before)
  ∧ last (printed (trace res)) = Some [PStr " "; description]
  ∧ length (http_calls (trace res)) = S (length (http_calls (trace before)))
  ∧ final res = final before.
Proof.
  cbv zeta. intros Hbefore Hst%not_429 Hjson Herr Hdescr.
  rewrite (pager_next _ _ _ _ _ _ _ Hbefore).
  rewrite bind_run, (pager_turn_answer _ _ _ _ _ _ _ data) by done.
  rewrite Hst. unfold unthrottled. run_prims.
  rewrite Herr. simpl. rewrite Hdescr. simpl.
  rewrite yielded_app, http_calls_app, length_app.
  unfold printed. rewrite omap_app. simpl.
  rewrite last_app. simpl. rewrite app_nil_r.
  repeat split; try done. lia.
Qed.

(** X10. With the wait at its default, a readable response that is an HTTP
    failure other than a 429 and has no [error] member raises the
    response's error, whatever its body holds: nothing of it is yielded. *)
Theorem pager_http_failure_raises params replies r data more σ params' :
  let before := _pager headers method url params on_item replies σ in
  let res := _pager headers method url params on_item
               (replies ++ Answer r :: more) σ in
  outcome before = Ok (Awaiting DEFAULT_RATE_LIMIT_TIMEOUT params') →
  status r ≠ 429 →
  ok r = false →
  json r = Some data →
  py_in "error" data = Ok false →
  res = Run (trace before ++ [EvHttp (Request method url params' headers) (Answer r)])
            (Raise (ClientResponseError (status r))) (final before).
Proof.
  cbv zeta. intros Hbefore Hst%not_429 Hok Hjson Herr.
  rewrite (pager_next _ _ _ _ _ _ _ Hbefore).
  rewrite bind_run, (pager_turn_answer _ _ _ _ _ _ _ data) by done.
  rewrite Hst. unfold unthrottled, deliver. run_prims.
  rewrite Herr. simpl. rewrite Hok. simpl. done.
Qed.

(** X11. A reply without a readable body ends the run, a 429 included:
    the body is read before the status is looked at, so such a 429 is
    neither waited for nor retried; and so does a request that gets no
    reply. *)
Theorem pager_unreadable_reply_ends_run params replies rep more σ rate
    params' :
  let before := _pager headers method url params on_item replies σ in
  let res := _pager headers method url params on_item
               (replies ++ rep :: more) σ in
  outcome before = Ok (Awaiting rate params') →
  match rep with Answer r => json r = None | NoAnswer => True end →
  res = Run (trace before ++ [EvHttp (Request method url params' headers) rep])
            (Raise (match rep with
                    | Answer _ => ContentError
                    | NoAnswer => ClientConnectionError
                    end))
            (final before).
Proof.
  cbv zeta. intros Hbefore Hrep.
  rewrite (pager_next _ _ _ _ _ _ _ Hbefore), bind_run.
  destruct rep as [r|].
  - by rewrite pager_turn_no_json.
  - by rewrite pager_turn_no_answer.
Qed.

(** The parameters of a run other than [offset] stay as they were. *)
Lemma pager_loop_params replies :
  consumer on_item →
  ∀ rate params σ rate' params',
    outcome (pager_loop headers method url on_item rate params replies σ) =
      Ok (Awaiting rate' params') →
    ∀ k, k ≠ "offset" → params' !! k = params !! k.
Proof.
  intros Hc. induction replies as [|rep replies IH];
    intros rate params σ rate' params'.
  - simpl. by intros [= <- <-].
  - rewrite pager_loop_cons, bind_run.
    pose proof (pager_turn_outcome headers method url on_item rate params
                  rep σ Hc) as Hout.
    destruct (outcome (turn rate params rep σ)) as [fl|]; [|done].
    destruct Hout as (r & data & -> & Hjson & Hfl).
    rewrite outcome_prepend. destruct fl as [rate1 params1|]; simpl; [|done].
    intros Hrun k Hk. rewrite (IH _ _ _ _ _ Hrun k Hk).
    destruct (status r =? 429).
    + by injection Hfl as _ ->.
    + destruct Hfl as (_ & hm & next & _ & _ & _ & ->).
      by rewrite lookup_insert_ne.
Qed.

(** X12. [_pager] needs the [username] parameter only for the message of
    the first 429 of a throttling episode: called without it, the run
    breaks on that 429 with a [KeyError], before any wait. *)
Theorem pager_first_throttle_needs_username params replies r data more σ
    params' :
  let before := _pager headers method url params on_item replies σ in
  let res := _pager headers method url params on_item
               (replies ++ Answer r :: more) σ in
  consumer on_item →
  params !! "username" = None →
  outcome before = Ok (Awaiting DEFAULT_RATE_LIMIT_TIMEOUT params') →
  status r = 429 →
  json r = Some data →
  res = Run (trace before ++
             [EvHttp (Request method url params' headers) (Answer r)])
            (Raise (KeyError "username")) (final before).
Proof.
  cbv zeta. intros Hc Huser Hbefore Hst Hjson.
  assert (params' !! "username" = None) as Huser'.
  { unfold _pager in Hbefore.
    rewrite (pager_loop_params _ Hc _ _ _ _ _ Hbefore) by done.
    by rewrite !lookup_insert_ne. }
  rewrite (pager_next _ _ _ _ _ _ _ Hbefore).
  rewrite bind_run, (pager_turn_answer _ _ _ _ _ _ _ data) by done.
  rewrite Hst. unfold throttled. run_prims. by rewrite Huser'.
Qed.

Lemma pager_turn_first rate params rep σ :
  ∃ rest, trace (turn rate params rep σ) =
            EvHttp (Request method url params headers) rep :: rest.
Proof.
  destruct rep as [r|]; [|by eexists].
  destruct (json r) as [data|] eqn:Hjson.
  - rewrite (pager_turn_answer _ _ _ _ _ _ _ data) by done.
    rewrite trace_prepend. by eexists.
  - rewrite pager_turn_no_json by done. by eexists.
Qed.

Lemma pager_turn_requests rate params rep σ :
  consumer on_item →
  is_Some (params !! "offset") →
  pager_requests (trace (turn rate params rep σ)) =
    [Request method url params headers].
Proof.
  intros Hc [o Hoff].
  pose proof (pager_turn_sent_offsets headers method url on_item rate params
                rep σ o Hc Hoff) as Hsent.
  destruct (pager_turn_first rate params rep σ) as (rest & Hrest).
  rewrite Hrest in *.
  change (EvHttp ?a ?b :: rest) with ([EvHttp a b] ++ rest) in *.
  rewrite pager_requests_app. rewrite sent_offsets_app in Hsent.
  unfold sent_offsets at 1 in Hsent. unfold pager_requests at 1.
  simpl in *. rewrite Hoff in *. simpl in *.
  injection Hsent as Hsent. by rewrite pager_requests_quiet.
Qed.

Lemma pager_loop_requests replies :
  consumer on_item →
  ∀ rate params σ,
    is_Some (params !! "offset") →
    Forall (λ req, req_method req = method ∧ req_url req = url
                   ∧ req_headers req = headers
                   ∧ ∀ k, k ≠ "offset" → req_params req !! k = params !! k)
      (pager_requests
         (trace (pager_loop headers method url on_item rate params replies σ))).
Proof.
  intros Hc. induction replies as [|rep replies IH]; intros rate params σ Hoff.
  - constructor.
  - rewrite pager_loop_cons, bind_run.
    pose proof (pager_turn_outcome headers method url on_item rate params
                  rep σ Hc) as Hout.
    pose proof (pager_turn_requests rate params rep σ Hc Hoff) as Hreq.
    destruct (outcome (turn rate params rep σ)) as [fl|].
    2: { simpl. rewrite Hreq. by repeat constructor. }
    rewrite trace_prepend, pager_requests_app, Hreq.
    constructor; [done|].
    destruct Hout as (r & data & -> & Hjson & Hfl).
    destruct fl as [rate1 params1|]; simpl; [|constructor].
    assert (is_Some (params1 !! "offset")
            ∧ ∀ k, k ≠ "offset" → params1 !! k = params !! k) as [Hoff1 Hk].
    { destruct (status r =? 429).
      - by injection Hfl as _ ->.
      - destruct Hfl as (_ & hm & next & _ & _ & _ & ->). split.
        + rewrite lookup_insert_eq. by eexists.
        + intros k Hk. by rewrite lookup_insert_ne. }
    eapply Forall_impl; [by apply IH|].
    intros req (H1 & H2 & H3 & H4). repeat split; try done.
    intros k Hne. by rewrite H4, Hk.
Qed.

(** X13. Every request of a run of the pager is the one the caller asked
    for: same method, same URL, the headers given at the start (whatever
    the guard has done to the access token in between), a limit of 24,
    mature content on, and the caller's other parameters; only the offset
    moves. *)
Theorem pager_requests_shape params replies σ :
  consumer on_item →
  Forall (λ req,
            req_method req = method ∧ req_url req = url
            ∧ req_headers req = headers
            ∧ req_params req !! "limit" = Some (PInt 24)
            ∧ req_params req !! "mature_content" = Some (PStr "true")
            ∧ ∀ k, k ≠ "offset" → k ≠ "limit" → k ≠ "mature_content" →
                   req_params req !! k = params !! k)
    (pager_requests
       (trace (_pager headers method url params on_item replies σ))).
Proof.
  intros Hc. unfold _pager.
  eapply Forall_impl.
  { apply pager_loop_requests; [done|].
    rewrite !lookup_insert_ne by done. rewrite lookup_insert_eq. by eexists. }
  intros req (H1 & H2 & H3 & H4). repeat split; try done.
  - rewrite H4 by done. rewrite lookup_insert_ne by done.
    by rewrite lookup_insert_eq.
  - rewrite H4 by done. by rewrite lookup_insert_eq.
  - intros k Ho Hl Hm. rewrite H4 by done. by rewrite !lookup_insert_ne.
Qed.
End Edges.

(** The reset after a throttling episode, the guard having returned. *)
Lemma unthrottled_reset url rate data σ :
  rate ≠ DEFAULT_RATE_LIMIT_TIMEOUT →
  outcome (_ensure_access σ) = Ok tt →
  unthrottled url rate data σ =
    Run (trace (_ensure_access σ) ++ [EvPrint []])
        (Ok DEFAULT_RATE_LIMIT_TIMEOUT) (final (_ensure_access σ)).
Proof.
  intros Hrate%Z.eqb_neq Hguard. unfold unthrottled.
  set (guard := _ensure_access) in *. clearbody guard.
  run_prims. rewrite Hrate. simpl.
  by destruct (guard σ) as [t [[]|e] σ']; simpl in *.
Qed.

(** A successful response with a list of results is handed on. *)
Lemma deliver_yield response data items rate params σ :
  ok response = true →
  py_getitem data "results" = Ok (PList items) →
  let res := deliver yield response data rate params σ in
  trace res = EvYield <$> items
  ∧ final res = σ
  ∧ outcome res =
      rbind (py_getitem data "has_more") (λ has_more,
        if is_False has_more then Ok Break
        else rbind (py_getitem data "next_offset") (λ next_offset,
               Ok (Continue rate (<["offset" := next_offset]> params)))).
Proof.
  intros Hok Hres. pose proof for_each_yield as Heach.
  unfold deliver. set (each := for_each yield) in *. clearbody each.
  unfold raise_for_status, lift, bind, ret. rewrite Hok, Hres. simpl.
  rewrite Heach. simpl.
  destruct (py_getitem data "has_more") as [has_more|]; simpl.
  2: { by rewrite app_nil_r. }
  destruct (is_False has_more); simpl.
  { by rewrite app_nil_r. }
  destruct (py_getitem data "next_offset"); simpl; by rewrite app_nil_r.
Qed.

(** X14. The first response after a throttling episode is not checked for
    an [error] member: once the guard has returned, its results are
    yielded whether it has one or not, and the run does not exit. *)
Theorem pager_no_error_check_after_throttle headers method url params replies
    r data items σ rate params' :
  let before := _pager headers method url params yield replies σ in
  let res := _pager headers method url params yield (replies ++ [Answer r]) σ in
  outcome before = Ok (Awaiting rate params') →
  rate ≠ DEFAULT_RATE_LIMIT_TIMEOUT →
  status r ≠ 429 →
  ok r = true →
  json r = Some data →
  py_getitem data "results" = Ok (PList items) →
  outcome (_ensure_access (final before)) = Ok tt →
  yielded (trace res) = yielded (trace before) ++ items
  ∧ outcome res ≠ Raise (SystemExit 1).
Proof.
  cbv zeta. intros Hbefore Hrate Hst%not_429 Hok Hjson Hres Hguard.
  rewrite (pager_next _ _ _ _ _ _ _ _ _ _ _ Hbefore).
  rewrite bind_run, (pager_turn_answer _ _ _ _ _ _ _ data) by done.
  rewrite Hst, bind_run, unthrottled_reset by done.
  cbn [outcome trace final].
  set (σ' := final (_ensure_access _)).
  destruct (deliver_yield r data items DEFAULT_RATE_LIMIT_TIMEOUT params' σ'
              Hok Hres) as (Ht & Hf & Ho).
  destruct (ensure_access_observed
              (final (_pager headers method url params yield replies σ)))
    as (_ & Hquiet & _).
  assert (outcome (deliver yield r data DEFAULT_RATE_LIMIT_TIMEOUT params' σ')
          ≠ Raise (SystemExit 1)) as Hexit.
  { rewrite Ho. clear.
    assert (∀ k, py_getitem data k ≠ Raise (SystemExit 1)) as Hget.
    { intros k. destruct data as [| | | | | |d]; try done. simpl.
      by destruct (dict_get k d). }
    destruct (py_getitem data "has_more") as [has_more|] eqn:Hmore; simpl.
    2: { intros [= ->]. by apply (Hget "has_more"). }
    destruct (is_False has_more); [done|].
    destruct (py_getitem data "next_offset") eqn:Hnext; simpl; [done|].
    intros [= ->]. by apply (Hget "next_offset"). }
  destruct (deliver yield r data DEFAULT_RATE_LIMIT_TIMEOUT params' σ')
    as [td od fd].
  simpl in Ht, Hexit. subst td.
  destruct od as [[rate1 params1|]|e]; unfold prepend; simpl;
    rewrite ?app_nil_r, yielded_app;
    change (yielded (EvHttp ?a ?b :: ?t)) with (yielded t);
    rewrite !yielded_app, Hquiet, yielded_yields;
    (split; [done|]); try done.
  intros [= ->]. by apply Hexit.
Qed.

(** ** A service whose access token the server accepts *)




Section Authorized.
Hypothesis Hprobe : ∀ n, probe_verdict (placebo_replies n) = Ok true.

(** The guard of a service that has a refresh token: one probe, nothing
    else. *)
Lemma ensure_access_probe_ok σ :
  is_None (refresh_token (self σ)) = false →
  _ensure_access σ =
    Run [EvEnsureAccess;
         EvHttp (probe_request (self σ)) (placebo_replies (placebo_seen σ))]
        (Ok tt)
        (Machine (self σ) (S (placebo_seen σ)) (token_seen σ)).
Proof.
  intros Hrefresh. specialize (Hprobe (placebo_seen σ)).
  unfold probe_verdict in Hprobe.
  unfold _ensure_access, _refresh_token, probe_request.
  set (authorize := _authorize). clearbody authorize.
  run_prims. rewrite Hrefresh.
  destruct (placebo_replies (placebo_seen σ)) as [r|]; simpl; [|done].
  destruct (json r) as [data|]; simpl; [|done].
  destruct (py_getitem data "status") as [st|]; simpl in *; [|done].
  injection Hprobe as ->. done.
Qed.




(** *** [get_art_info] *)

(** What [get_art_info] says and returns for the body of a response that
    is not a 429. *)
Definition art_info_said (data : pyval) : list (list pyval) :=
  match py_in "error" data, py_getitem data "error_description" with
  | Ok true, Ok description =>
      [[PStr "Error when getting art info:"; description]]
  | _, _ => []
  end.

Definition art_info_result (data : pyval) : result lookup_end :=
  rbind (py_in "error" data) (λ has_error,
    if has_error then
      rbind (py_getitem data "error_description") (λ _, Ok (Returned PNone))
    else Ok (Returned data)).

Lemma get_art_info_throttled deviationid r data more token ths :
  forallb is_throttle ths = true →
  status r ≠ 429 →
  json r = Some data →
  ∀ rate σ,
    is_None (refresh_token (self σ)) = false →
    access_token (self σ) = PStr token →
    let res := get_art_info deviationid rate (ths ++ Answer r :: more) σ in
    let rate' := rate * 2 ^ Z.of_nat (length ths) in
    sleeps (trace res) = backoff rate (length ths)
    ∧ ensure_access_calls (trace res) = S (length ths)
    ∧ printed (trace res) =
        (if rate' >? DEFAULT_RATE_LIMIT_TIMEOUT then [[]] else [])
        ++ art_info_said data
    ∧ outcome res = art_info_result data
    ∧ token_exchanges (trace res) = []
    ∧ self (final res) = self σ.
Proof.
  intros Hths Hst%not_429 Hjson.
  induction ths as [|rep ths IH]; intros rate σ Hrefresh Haccess; cbv zeta.
  - rewrite get_art_info_unfold, app_nil_l.
    change (Z.of_nat (length [])) with 0. rewrite Z.pow_0_r, Z.mul_1_r.
    pose proof (ensure_access_probe_ok σ Hrefresh) as Hguard.
    set (guard := _ensure_access) in *. clearbody guard.
    unfold _headers, _auth_header, art_info_said, art_info_result.
    run_prims. rewrite Hguard. simpl. rewrite Haccess. simpl.
    rewrite Hst, Hjson.
    destruct (rate >? DEFAULT_RATE_LIMIT_TIMEOUT); simpl;
      (destruct (py_in "error" data) as [[]|]; simpl; [|done..]);
      by destruct (py_getitem data "error_description").
  - simpl in Hths. apply andb_prop in Hths as [Hrep Hths].
    destruct rep as [r0|]; [|done]. simpl in Hrep.
    rewrite get_art_info_unfold, <- app_comm_cons.
    pose proof (ensure_access_probe_ok σ Hrefresh) as Hguard.
    set (σ' := Machine (self σ) (S (placebo_seen σ)) (token_seen σ)) in *.
    specialize (IH Hths (rate * 2) σ' Hrefresh Haccess). cbv zeta in IH.
    destruct IH as (I1 & I2 & I3 & I4 & I5 & I6).
    set (rest := get_art_info deviationid (rate * 2)) in *. clearbody rest.
    set (guard := _ensure_access) in *. clearbody guard.
    unfold _headers, _auth_header. run_prims.
    rewrite Hguard. simpl. rewrite Haccess. simpl. rewrite Hrep.
    destruct (rest (ths ++ Answer r :: more) σ') as [t o σ''].
    simpl in *. unfold token_exchanges, printed, sleeps, ensure_access_calls
      in *. simpl.
    rewrite I1, I2, I3, I4, I5, I6.
    replace (rate * 2 ^ Z.of_nat (S (length ths)))
      with (rate * 2 * 2 ^ Z.of_nat (length ths)).
    2: { rewrite Nat2Z.inj_succ, Z.pow_succ_r by lia. lia. }
    done.
Qed.

(** X16. [get_art_info] on [k] 429s followed by a response that is not
    one, with an access token the probe accepts: it waits 32, 64, ...
    seconds, [k] waits in all, and passes the guard before each of its
    [k + 1] requests; a 429 need not have a readable body. The answer is
    the body of the last response, or [None] after a message when the body
    has an [error] member; an empty line is printed first when there was a
    429. The HTTP status of the last response plays no part. *)
Theorem get_art_info_backoff deviationid ths r data more token σ :
  is_None (refresh_token (self σ)) = false →
  access_token (self σ) = PStr token →
  forallb is_throttle ths = true →
  status r ≠ 429 →
  json r = Some data →
  let res := get_art_info deviationid DEFAULT_RATE_LIMIT_TIMEOUT
               (ths ++ Answer r :: more) σ in
  sleeps (trace res) = backoff 32 (length ths)
  ∧ ensure_access_calls (trace res) = S (length ths)
  ∧ printed (trace res) =
      (match ths with [] => [] | _ => [[]] end) ++ art_info_said data
  ∧ outcome res = art_info_result data
  ∧ token_exchanges (trace res) = []
  ∧ self (final res) = self σ.
Proof.
  intros Hrefresh Haccess Hths Hst Hjson.
  destruct (get_art_info_throttled deviationid r data more token ths Hths
              Hst Hjson DEFAULT_RATE_LIMIT_TIMEOUT σ Hrefresh Haccess)
    as (H1 & H2 & H3 & H4 & H5 & H6).
  cbv zeta. rewrite H1, H2, H3, H4, H5, H6. repeat split; try done.
  f_equal. destruct ths as [|rep ths]; [done|].
  assert ((DEFAULT_RATE_LIMIT_TIMEOUT * 2 ^ Z.of_nat (length (rep :: ths))
             >? DEFAULT_RATE_LIMIT_TIMEOUT) = true) as ->; [|done].
  unfold DEFAULT_RATE_LIMIT_TIMEOUT. simpl length.
  rewrite Nat2Z.inj_succ, Z.pow_succ_r by lia.
  assert (0 < 2 ^ Z.of_nat (length ths)) by (apply Z.pow_pos_nonneg; lia).
  lia.
Qed.
End Authorized.

(** ** [get_download] *)

(** X17. [get_download] does not look at the HTTP status of the response:
    two responses with the same body give the same result, the same
    messages and the same requests, a 429 included, for which it neither
    waits nor tries again. *)
Theorem get_download_ignores_status deviationid r1 r2 σ :
  json r1 = json r2 →
  let res1 := get_download deviationid (Answer r1) σ in
  let res2 := get_download deviationid (Answer r2) σ in
  outcome res1 = outcome res2
  ∧ printed (trace res1) = printed (trace res2)
  ∧ http_calls (trace res1) = http_calls (trace res2)
  ∧ final res1 = final res2
  ∧ sleeps (trace res1) = [].
Proof.
  intros Hjson. cbv zeta.
  destruct (ensure_access_observed σ) as (Hsleeps & _).
  unfold get_download. set (guard := _ensure_access) in *. clearbody guard.
  unfold printed, http_calls, sleeps in *.
  run_prims. destruct (guard σ) as [t [[]|e] σ']; simpl in *; [|done].
  destruct (_headers (self σ')) as [headers|]; simpl.
  2: { by rewrite !app_nil_r. }
  rewrite <- Hjson. destruct (json r1) as [data|]; simpl.
  2: { rewrite !omap_app, Hsleeps. done. }
  destruct (py_in "error" data) as [[]|]; simpl.
  - destruct (py_getitem data "error_description"); simpl;
      rewrite !omap_app, Hsleeps; done.
  - destruct (py_getitem data "src"); simpl; rewrite !omap_app, Hsleeps; done.
  - rewrite !omap_app, Hsleeps. done.
Qed.

(** X18. What [get_download] answers, once past the guard, to a readable
    response: [None], after a message, when the body has an [error]
    member with a description; the [src] of the body when it has no
    [error] member, and a [KeyError] if it has no [src] either. It sends
    one request, with the header of the access token as the guard left
    it. *)
Theorem get_download_result deviationid r data σ headers :
  let guard := _ensure_access σ in
  let res := get_download deviationid (Answer r) σ in
  outcome guard = Ok tt →
  _headers (self (final guard)) = Ok headers →
  json r = Some data →
  http_calls (trace res) =
    http_calls (trace guard) ++
    [Request "GET"
       (String.append API_URL
          (String.append "/deviation/download/" deviationid)) ∅ headers]
  ∧ outcome res =
      match py_in "error" data with
      | Ok true =>
          rbind (py_getitem data "error_description") (λ _, Ok PNone)
      | Ok false => py_getitem data "src"
      | Raise e => Raise e
      end
  ∧ printed (trace res) =
      printed (trace guard) ++
      match py_in "error" data, py_getitem data "error_description" with
      | Ok true, Ok description =>
          [[PStr "Error when getting download link:"; description]]
      | _, _ => []
      end
  ∧ final res = final guard.
Proof.
  cbv zeta. intros Hguard Hheaders Hjson.
  unfold get_download. set (guard := _ensure_access) in *. clearbody guard.
  unfold printed, http_calls in *.
  run_prims. destruct (guard σ) as [t [[]|e] σ']; simpl in *; [|done].
  rewrite Hheaders. simpl. rewrite Hjson. simpl.
  destruct (py_in "error" data) as [[]|]; simpl.
  - destruct (py_getitem data "error_description"); simpl;
      rewrite !omap_app; done.
  - destruct (py_getitem data "src"); simpl; rewrite !omap_app; done.
  - rewrite !omap_app. done.
Qed.

(** ** [list_folders] *)







(** *** Pages, for a consumer whose events are known *)

Section Relay.
Context (headers : gmap string string) (method url : string)
        (on_item : pyval → M unit) (good : pyval → bool)
        (events : pyval → list event).
Hypothesis Hitem :
  ∀ x σ, good x = true → on_item x σ = Run (events x) (Ok tt) σ.
Hypothesis Hquiet : ∀ x, http_calls (events x) = [].





End Relay.






(** ** The name [list_folders] gives a folder *)




(** ** What the guard can raise *)

Definition guard_exception (e : exn) : bool :=
  match e with
  | SystemExit code => code =? 1
  | KeyError _ | TypeError | ContentError | ClientConnectionError => true
  | AttributeError | Exception _ | ClientResponseError _ => false
  end.

Lemma py_getitem_raises v k e :
  py_getitem v k = Raise e → guard_exception e = true.
Proof.
  destruct v as [| | | | | |d]; simpl; try by intros [= <-].
  destruct (dict_get k d); [done|]. by intros [= <-].
Qed.

Lemma py_in_raises s v e : py_in s v = Raise e → guard_exception e = true.
Proof. destruct v; simpl; try done; by intros [= <-]. Qed.

Lemma authorize_raises_only add_params σ e :
  creds_wf (creds (self σ)) →
  outcome (_authorize add_params σ) = Raise e →
  guard_exception e = true.
Proof.
  intros (by_slug & oauth_items & H1 & H2).
  unfold _authorize.
  pose proof save_tokens_run as Hsave.
  set (save := _save_tokens) in *. clearbody save.
  run_prims.
  destruct (token_replies (token_seen σ)) as [r|]; simpl; [|by intros [= <-]].
  destruct (json r) as [data|]; simpl; [|by intros [= <-]].
  destruct (py_in "error" data) as [[]|] eqn:Herr; simpl.
  - destruct (py_getitem data "error_description") eqn:Hd; simpl.
    + by intros [= <-].
    + intros [= <-]. by apply py_getitem_raises in Hd.
  - destruct (ok r); simpl.
    + destruct (py_getitem data "access_token") eqn:Ha; simpl.
      2: { intros [= <-]. by apply py_getitem_raises in Ha. }
      destruct (py_getitem data "refresh_token") eqn:Hr; simpl.
      2: { intros [= <-]. by apply py_getitem_raises in Hr. }
      set (σ1 := Machine _ _ _).
      by destruct (Hsave σ1 by_slug oauth_items) as (c & -> & _).
    + destruct (py_getitem data "error_description") as [d|] eqn:Hd; simpl.
      * by destruct (eq_str d INVALID_CODE_MSG).
      * intros [= <-]. by apply py_getitem_raises in Hd.
  - intros [= <-]. by apply py_in_raises in Herr.
Qed.

(** X21. What the guard can raise, for a service built from stored
    credentials: an exit with status 1, a failure of the transport or of
    the reading of a body, or a failed lookup in a body. It never raises
    for the HTTP status of the probe or of the token endpoint, and it never
    reaches the "No refresh token" of [_refresh_token]. *)
Theorem ensure_access_raises_only σ e :
  creds_wf (creds (self σ)) →
  outcome (_ensure_access σ) = Raise e →
  guard_exception e = true
  ∧ e ≠ Exception "No refresh token"
  ∧ ∀ status, e ≠ ClientResponseError status.
Proof.
  intros Hwf Hraise.
  assert (guard_exception e = true) as He.
  2: { split; [done|]. by destruct e. }
  revert Hraise. pose proof authorize_raises_only as Hauth.
  unfold _ensure_access, _fetch_access_token, _refresh_token.
  set (authorize := _authorize) in *. clearbody authorize.
  run_prims.
  destruct (is_None (refresh_token (self σ))) eqn:Hrefresh; simpl.
  - destruct (is_None (code (self σ))); simpl; [by intros [= <-]|].
    specialize (Hauth {[ "grant_type" := PStr "authorization_code";
                         "code" := code (self σ);
                         "redirect_uri" := REDIRECT_URI ]} σ e Hwf).
    destruct (authorize _ σ) as [t [[]|e'] σ']; simpl in *; [done|].
    intros [= ->]. by apply Hauth.
  - destruct (placebo_replies (placebo_seen σ)) as [r|]; simpl;
      [|by intros [= <-]].
    destruct (json r) as [data|]; simpl; [|by intros [= <-]].
    destruct (py_getitem data "status") as [st|] eqn:Hst; simpl.
    2: { intros [= <-]. by apply py_getitem_raises in Hst. }
    destruct (eq_str st "success"); simpl; [done|].
    rewrite Hrefresh. simpl.
    set (σ1 := Machine _ _ _).
    specialize (Hauth {[ "grant_type" := PStr "refresh_token";
                         "refresh_token" := refresh_token (self σ) ]}
                      σ1 e Hwf).
    destruct (authorize _ σ1) as [t [[]|e'] σ']; simpl in *; [done|].
    intros [= ->]. by apply Hauth.
Qed.

(** ** A first use *)

(** X22. The first listing of a service that has a code and no tokens yet:
    the guard exchanges the code, the tokens of the response are saved
    without the code, and every request of the listing carries the access
    token just received in its [authorization] header. *)
Theorem first_use_sends_new_token σ r data access refresh username folder
    replies :
  creds_wf (creds (self σ)) →
  is_None (refresh_token (self σ)) = true →
  is_None (code (self σ)) = false →
  token_replies (token_seen σ) = Answer r →
  ok r = true →
  json r = Some data →
  py_in "error" data = Ok false →
  py_getitem data "access_token" = Ok (PStr access) →
  py_getitem data "refresh_token" = Ok refresh →
  let res := list_folder_arts username folder replies σ in
  ∃ c rest,
    trace res =
      EvEnsureAccess
      :: EvHttp (token_request (code_grant (self σ)) (self σ)) (Answer r)
      :: EvSaveCreds c :: rest
    ∧ holds_exchange_result c data
    ∧ Forall (λ req, req_headers req =
                       {[ "authorization" := String.append "Bearer " access ]})
             (pager_requests rest).
Proof.
  intros Hwf Hrefresh Hcode Hrep Hok Hjson Herr Haccess Hnew. cbv zeta.
  destruct (authorize_success_run (code_grant (self σ)) σ r data
              (PStr access) refresh Hwf Hrep Hok Hjson Herr Haccess Hnew)
    as (c & Ht & Ho & Hc & Ha & _).
  assert (∃ σ', _ensure_access σ =
                  Run [EvEnsureAccess;
                       EvHttp (token_request (code_grant (self σ)) (self σ))
                              (Answer r);
                       EvSaveCreds c] (Ok tt) σ'
                ∧ access_token (self σ') = PStr access) as (σ' & Hguard & Hσ').
  { unfold _ensure_access, _fetch_access_token, code_grant in *.
    set (authorize := _authorize) in *. clearbody authorize.
    run_prims. rewrite Hrefresh. simpl. rewrite Hcode. simpl.
    destruct (authorize _ σ) as [t o σ']. simpl in *. subst t o.
    by exists σ'. }
  unfold list_folder_arts. rewrite bind_run, Hguard. simpl.
  rewrite bind_run. simpl. rewrite bind_run. simpl.
  unfold _headers, _auth_header. rewrite Hσ'. simpl.
  unfold prepend. simpl. eexists c, _. split; [done|]. split; [done|].
  unfold _pager.
  eapply Forall_impl.
  { apply pager_loop_requests; [apply on_art_consumer|].
    rewrite !lookup_insert_ne by done. rewrite lookup_insert_eq. by eexists. }
  by intros req (_ & _ & ? & _).
Qed.



End Service.

(** ** A worked session *)

Definition sample_creds : pyval :=
  PDict [("deviantart",
          PDict [("client_id", PStr "1234");
                 ("client_secret", PStr "s3cret");
                 ("oauth",
                  PDict [("code", PStr "c0de");
                         ("access_token", PStr "old-access");
                         ("refresh_token", PStr "old-refresh")])])].

Definition sample_service : DAService :=
  Service sample_creds (PStr "1234") (PStr "s3cret") (PStr "c0de")
          (PStr "old-access") (PStr "old-refresh").

Definition sample_machine : machine := Machine sample_service 0 0.

Definition sample_redirect : pyval := PStr "https://localhost/callback".

Definition sample_cache_key (author url : pyval) : pyval := PList [author; url].

Definition probe_succeeds : nat → reply :=
  λ _, Answer (Response 200 (Some (PDict [("status", PStr "success")]))).

Definition tokens_issued : nat → reply :=
  λ _, Answer (Response 200
                 (Some (PDict [("access_token", PStr "new-access");
                               ("refresh_token", PStr "new-refresh")]))).

Definition listing_body (items : list pyval) (has_more : bool)
    (next_offset : pyval) : pyval :=
  PDict [("results", PList items);
         ("has_more", PBool has_more);
         ("next_offset", next_offset)].

Definition listing (items : list pyval) (has_more : bool) (next_offset : pyval)
  : response :=
  Response 200 (Some (listing_body items has_more next_offset)).

Definition too_many_requests : response :=
  Response 429 (Some (PDict [("error", PStr "user_api_threshold")])).

Definition deviation (author url deviationid : string) : pyval :=
  PDict [("deviationid", PStr deviationid);
         ("url", PStr url);
         ("author", PDict [("username", PStr author)])].

Definition sample_params : gmap string pyval := {[ "username" := PStr "bob" ]}.

Definition sample_pager (on_item : pyval → M unit) (replies : list reply)
  : run pager_end :=
  _pager "deviantart" "oauth" sample_redirect probe_succeeds tokens_issued
         ∅ "GET" "/api/v1/oauth2/gallery/all" sample_params on_item replies
         sample_machine.

Definition sample_extra : list reply := [Answer (listing [PInt 5] false PNone)].


(** Pages of 24, 24 and 10 records: 58 items and three requests. *)
Example three_pages :
  let res :=
    sample_pager yield
      [Answer (listing (replicate 24 (PStr "art")) true (PInt 24));
       Answer (listing (replicate 24 (PStr "art")) true (PInt 48));
       Answer (listing (replicate 10 (PStr "art")) false PNone)] in
  length (yielded (trace res)) = 58%nat
  ∧ length (http_calls (trace res)) = 3%nat
  ∧ sent_offsets (trace res) = [PInt 0; PInt 24; PInt 48]
  ∧ outcome res = Ok Exhausted.
Proof. repeat split; reflexivity. Qed.



(** The same with a page in between. *)
Definition cursor_replies : list reply :=
  [Answer (listing [PInt 1] true (PInt 24));
   Answer too_many_requests; Answer too_many_requests;
   Answer (listing [PInt 2] true (PInt 60));
   Answer (listing [] false PNone)].


Example cursor_replies_offsets :
  sent_offsets (trace (sample_pager yield cursor_replies)) =
    [PInt 0; PInt 24; PInt 24; PInt 24; PInt 60]
  ∧ sleeps (trace (sample_pager yield cursor_replies)) = [32; 64]
  ∧ yielded (trace (sample_pager yield cursor_replies)) = [PInt 1; PInt 2].
Proof. repeat split; reflexivity. Qed.

Lemma saved_credentials_invariant_witness :
  __init__ "deviantart" "oauth" sample_creds = Ok sample_service
  ∧ (∀ cs n m,
       Forall (from_one_exchange "deviantart" "oauth" tokens_issued)
              (saved_creds
                 (perform_all "deviantart" "oauth" sample_redirect
                    sample_cache_key probe_succeeds tokens_issued cs
                    (Machine sample_service n m)).1))
  ∧ (∀ add_params n m r data access refresh,
       tokens_issued m = Answer r →
       ok r = true →
       json r = Some data →
       py_in "error" data = Ok false →
       py_getitem data "access_token" = Ok access →
       py_getitem data "refresh_token" = Ok refresh →
       let res := _authorize "deviantart" "oauth" tokens_issued add_params
                    (Machine sample_service n m) in
       ∃ c, saved_creds (trace res) = [c]
            ∧ holds_exchange_result "deviantart" "oauth" c data
            ∧ access_token (self (final res)) = access
            ∧ refresh_token (self (final res)) = refresh).
Proof.
  split; [reflexivity|].
  apply (saved_credentials_invariant "deviantart" "oauth" sample_redirect
           sample_cache_key probe_succeeds tokens_issued sample_creds
           sample_service).
  reflexivity.
Defined.

(** What is on disk after the code has been exchanged: no code, the two new
    tokens. *)
Example first_exchange_saves :
  saved_creds
    (trace (_ensure_access "deviantart" "oauth" sample_redirect probe_succeeds
              tokens_issued
              (Machine (Service sample_creds (PStr "1234") (PStr "s3cret")
                                (PStr "c0de") PNone PNone) 0 0))) =
    [PDict [("deviantart",
             PDict [("client_id", PStr "1234");
                    ("client_secret", PStr "s3cret");
                    ("oauth",
                     PDict [("access_token", PStr "new-access");
                            ("refresh_token", PStr "new-refresh")])])]].
Proof. reflexivity. Qed.

(** The invalid-code response, without and with an [error] member. *)
Definition invalid_code_description : pyval :=
  PDict [("error_description", PStr INVALID_CODE_MSG)].
Definition answers (r : response) : nat → reply := λ _, Answer r.



Definition unavailable : pyval := PDict [("message", PStr "unavailable")].

Lemma authorize_failure_applies_nothing_witness :
  answers (Response 503 (Some unavailable)) (token_seen sample_machine) =
    Answer (Response 503 (Some unavailable))
  ∧ ok (Response 503 (Some unavailable)) = false
  ∧ json (Response 503 (Some unavailable)) = Some unavailable
  ∧ py_in "error" unavailable = Ok false
  ∧ let res :=
      _authorize "deviantart" "oauth"
        (answers (Response 503 (Some unavailable)))
        (refresh_grant sample_service) sample_machine in
    self (final res) = self sample_machine
    ∧ saved_creds (trace res) = []
    ∧ (outcome res = Ok tt
       ∨ outcome res = Raise (KeyError "error_description")
       ∨ outcome res = Raise TypeError).
Proof.
  repeat (split; [reflexivity|]).
  apply (authorize_failure_applies_nothing "deviantart" "oauth"
           (answers (Response 503 (Some unavailable)))
           (refresh_grant sample_service) sample_machine
           (Response 503 (Some unavailable)) unavailable); reflexivity.
Defined.



(** Seven 429s in a row: the guard is called before the sixth and the
    seventh sleep, whose waits are above 640 seconds. *)
Example seven_throttles :
  let res := sample_pager yield (replicate 7 (Answer too_many_requests)) in
  sleeps (trace res) = [32; 64; 128; 256; 512; 1024; 2048]
  ∧ ensure_access_calls (trace res) = 2%nat
  ∧ outcome res = Ok (Awaiting 4096
                        (<["mature_content" := PStr "true"]>
                           (<["limit" := PInt 24]>
                              (<["offset" := PInt 0]> sample_params)))).
Proof. repeat split; vm_compute; reflexivity. Qed.

(** A server whose cursor goes back. *)
Definition backward_replies : list reply :=
  [Answer (listing [PInt 1] true (PInt 24));
   Answer (listing [PInt 2] true (PInt 0));
   Answer (listing [PInt 3] false PNone)].

(** C8 as stated fails: the offsets of this run are 0, 24, 0. *)
Lemma pager_offsets_can_decrease :
  sent_offsets (trace (sample_pager yield backward_replies)) =
    [PInt 0; PInt 24; PInt 0]
  ∧ nondecreasing_from 0
      (sent_offsets (trace (sample_pager yield backward_replies))) = false.
Proof. split; reflexivity. Qed.

Lemma pager_offsets_nondecreasing_witness :
  consumer yield
  ∧ nondecreasing_from 0 (served_cursors cursor_replies) = true
  ∧ let res := sample_pager yield cursor_replies in
    nondecreasing_from 0 (sent_offsets (trace res)) = true
    ∧ (outcome res = Ok Exhausted →
       ∃ pre rep post,
         cursor_replies = pre ++ rep :: post
         ∧ reports_end rep = true
         ∧ forallb (λ x, negb (reports_end x)) pre = true
         ∧ res = sample_pager yield (pre ++ [rep]))
    ∧ (∀ pre rep post,
         reports_end rep = true →
         sample_pager yield (pre ++ rep :: post) =
           sample_pager yield (pre ++ [rep])
         ∧ ∀ rate' params',
             outcome (sample_pager yield (pre ++ [rep])) ≠
               Ok (Awaiting rate' params')).
Proof.
  assert (consumer yield) as Hc by (intros x σ; reflexivity).
  split; [exact Hc|]. split; [reflexivity|].
  exact (pager_offsets_nondecreasing "deviantart" "oauth" sample_redirect
           probe_succeeds tokens_issued ∅ "GET" "/api/v1/oauth2/gallery/all"
           sample_params yield cursor_replies sample_machine Hc eq_refl).
Defined.

(** A folder with a deviation, a null record and another deviation. *)
Definition folder_replies : list reply :=
  [Answer (listing [deviation "alice" "https://www.deviantart.com/alice/art/1"
                              "id-1";
                    PNone] true (PInt 24));
   Answer (listing [deviation "alice" "https://www.deviantart.com/alice/art/2"
                              "id-2"] false PNone)].

Definition folder_headers : gmap string string :=
  {[ "authorization" := "Bearer old-access" ]}.

Definition folder_guard : run unit :=
  _ensure_access "deviantart" "oauth" sample_redirect probe_succeeds
                 tokens_issued sample_machine.


Definition folder_arts : run pager_end :=
  list_folder_arts "deviantart" "oauth" sample_redirect sample_cache_key
    probe_succeeds tokens_issued "alice" "F0LDER" folder_replies
    sample_machine.


(** What the caller of [list_folder_arts] and the cache see. *)
Example folder_listing :
  List.filter consumer_event (trace folder_arts) =
    [EvCacheInsert "deviantart"
       (PList [PStr "alice"; PStr "https://www.deviantart.com/alice/art/1"])
       (PStr "id-1");
     EvYield (deviation "alice" "https://www.deviantart.com/alice/art/1" "id-1");
     EvYield PNone;
     EvCacheInsert "deviantart"
       (PList [PStr "alice"; PStr "https://www.deviantart.com/alice/art/2"])
       (PStr "id-2");
     EvYield (deviation "alice" "https://www.deviantart.com/alice/art/2" "id-2")].
Proof. reflexivity. Qed.

(** A record that is neither null nor a deviation stops the listing: it is
    not yielded and the cache is not told. *)
Example folder_listing_bad_record :
  let res := list_folder_arts "deviantart" "oauth" sample_redirect
               sample_cache_key probe_succeeds tokens_issued "alice" "F0LDER"
               [Answer (listing [PDict []] false PNone)] sample_machine in
  outcome res = Raise (KeyError "author")
  ∧ List.filter consumer_event (trace res) = [].
Proof. split; reflexivity. Qed.

(** ** More of the worked session *)

(** Credentials as stored after a first authorization, and before one. *)
Lemma saved_creds_load_back_witness :
  __init__ "deviantart" "oauth" sample_creds = Ok sample_service
  ∧ ∃ c,
      _save_tokens "deviantart" "oauth"
        (Machine (Service sample_creds (PStr "1234") (PStr "s3cret")
                          (PStr "c0de") (PStr "new-access")
                          (PStr "new-refresh")) 0 0) =
        Run [EvSaveCreds c] (Ok tt)
            (Machine (Service sample_creds (PStr "1234") (PStr "s3cret")
                              (PStr "c0de") (PStr "new-access")
                              (PStr "new-refresh")) 0 0)
      ∧ __init__ "deviantart" "oauth" c =
          Ok (Service c (PStr "1234") (PStr "s3cret") PNone
                      (PStr "new-access") (PStr "new-refresh")).
Proof.
  split; [reflexivity|].
  apply (saved_creds_load_back "deviantart" "oauth" sample_creds
           sample_service (PStr "new-access") (PStr "new-refresh") 0 0);
    [reflexivity | discriminate | discriminate].
Defined.

Lemma save_tokens_keeps_the_rest_witness :
  creds_wf "deviantart" "oauth" (creds (self sample_machine))
  ∧ ∃ c,
      _save_tokens "deviantart" "oauth" sample_machine =
        Run [EvSaveCreds c] (Ok tt) sample_machine
      ∧ (∀ k, k ≠ "deviantart" →
           py_getitem c k = py_getitem (creds (self sample_machine)) k)
      ∧ (∀ k, k ≠ "oauth" →
           rbind (py_getitem c "deviantart")
                 (λ by_slug, py_getitem by_slug k) =
           rbind (py_getitem (creds (self sample_machine)) "deviantart")
                 (λ by_slug, py_getitem by_slug k))
      ∧ (∀ k, k ≠ "code" → k ≠ "access_token" → k ≠ "refresh_token" →
           oauth_item "deviantart" "oauth" c k =
           oauth_item "deviantart" "oauth" (creds (self sample_machine)) k).
Proof.
  assert (creds_wf "deviantart" "oauth" (creds (self sample_machine))) as Hwf.
  { eexists _, _. split; reflexivity. }
  split; [exact Hwf|].
  exact (save_tokens_keeps_the_rest "deviantart" "oauth" sample_machine Hwf).
Defined.

Definition expired_grant : pyval :=
  PDict [("error", PStr "invalid_grant");
         ("error_description", PStr "The refresh token has expired.")].

Lemma authorize_error_member_is_fatal_witness :
  answers (Response 200 (Some expired_grant)) (token_seen sample_machine) =
    Answer (Response 200 (Some expired_grant))
  ∧ py_in "error" expired_grant = Ok true
  ∧ let res :=
      _authorize "deviantart" "oauth"
        (answers (Response 200 (Some expired_grant)))
        (refresh_grant sample_service) sample_machine in
    self (final res) = self sample_machine
    ∧ saved_creds (trace res) = []
    ∧ outcome res = Raise (SystemExit 1)
    ∧ printed (trace res) =
        [[PStr authorization_error_msg;
          PStr "The refresh token has expired."]].
Proof.
  repeat (split; [reflexivity|]).
  apply (authorize_error_member_is_fatal "deviantart" "oauth"
           (answers (Response 200 (Some expired_grant)))
           (refresh_grant sample_service) sample_machine
           (Response 200 (Some expired_grant)) expired_grant); reflexivity.
Defined.

Definition access_only : pyval := PDict [("access_token", PStr "new-access")].

Lemma authorize_missing_refresh_token_witness :
  answers (Response 200 (Some access_only)) (token_seen sample_machine) =
    Answer (Response 200 (Some access_only))
  ∧ py_getitem access_only "refresh_token" = Raise (KeyError "refresh_token")
  ∧ let res :=
      _authorize "deviantart" "oauth"
        (answers (Response 200 (Some access_only)))
        (refresh_grant sample_service) sample_machine in
    outcome res = Raise (KeyError "refresh_token")
    ∧ saved_creds (trace res) = []
    ∧ access_token (self (final res)) = PStr "new-access"
    ∧ refresh_token (self (final res)) = refresh_token (self sample_machine).
Proof.
  repeat (split; [reflexivity|]).
  apply (authorize_missing_refresh_token "deviantart" "oauth"
           (answers (Response 200 (Some access_only)))
           (refresh_grant sample_service) sample_machine
           (Response 200 (Some access_only)) access_only (PStr "new-access"));
    reflexivity.
Defined.

(** [str.lower] on ASCII. *)
Definition ascii_lower (s : string) : string :=
  string_map (λ c, let n := nat_of_ascii c in
                   if (65 <=? n)%nat && (n <=? 90)%nat
                   then ascii_of_nat (n + 32) else c) s.

(** A service that was never authorized, and one that has its code only. *)
Definition blank_machine : machine :=
  Machine (Service sample_creds (PStr "1234") (PStr "s3cret") PNone PNone
                   PNone) 0 0.
Definition fresh_machine : machine :=
  Machine (Service sample_creds (PStr "1234") (PStr "s3cret") (PStr "c0de")
                   PNone PNone) 0 0.

Lemma facade_needs_authorization_witness :
  is_None (refresh_token (self blank_machine)) = true
  ∧ is_None (code (self blank_machine)) = true
  ∧ get_download "deviantart" "oauth" sample_redirect probe_succeeds
      tokens_issued "id-1" NoAnswer blank_machine =
    Run [EvEnsureAccess; EvPrint [PStr "Authorize app first"]]
        (Raise (SystemExit 1)) blank_machine.
Proof.
  repeat (split; [reflexivity|]).
  apply (facade_needs_authorization "deviantart" "oauth" sample_redirect
           sample_cache_key probe_succeeds tokens_issued ascii_lower
           blank_machine); reflexivity.
Defined.

Lemma invalid_code_then_type_error_witness :
  is_None (refresh_token (self fresh_machine)) = true
  ∧ is_None (code (self fresh_machine)) = false
  ∧ access_token (self fresh_machine) = PNone
  ∧ py_getitem invalid_code_description "error_description" =
      Ok (PStr INVALID_CODE_MSG)
  ∧ outcome
      (list_folders "deviantart" "oauth" sample_redirect probe_succeeds
         (answers (Response 400 (Some invalid_code_description))) ascii_lower
         "alice" [] fresh_machine) = Raise TypeError.
Proof.
  repeat (split; [reflexivity|]).
  exact (f_equal outcome
           (proj1 (invalid_code_then_type_error "deviantart" "oauth"
                     sample_redirect sample_cache_key probe_succeeds
                     (answers (Response 400 (Some invalid_code_description)))
                     ascii_lower fresh_machine
                     (Response 400 (Some invalid_code_description))
                     invalid_code_description eq_refl eq_refl eq_refl eq_refl
                     eq_refl eq_refl eq_refl eq_refl) "alice" [])).
Defined.

(** The parameters a run over [sample_params] starts with. *)
Definition first_params : gmap string pyval :=
  <["mature_content" := PStr "true"]>
    (<["limit" := PInt 24]> (<["offset" := PInt 0]> sample_params)).

Definition failed_listing : pyval :=
  PDict [("error", PStr "server_error");
         ("error_description", PStr "Internal error.");
         ("results", PList [PInt 1]);
         ("has_more", PBool false)].

Lemma pager_error_member_exits_witness :
  outcome (sample_pager yield []) =
    Ok (Awaiting DEFAULT_RATE_LIMIT_TIMEOUT first_params)
  ∧ py_in "error" failed_listing = Ok true
  ∧ let before := sample_pager yield [] in
    let res := sample_pager yield
                 ([] ++ Answer (Response 200 (Some failed_listing))
                        :: sample_extra) in
    outcome res = Raise (SystemExit 1)
    ∧ yielded (trace res) = yielded (trace before)
    ∧ last (printed (trace res)) = Some [PStr " "; PStr "Internal error."]
    ∧ length (http_calls (trace res)) = S (length (http_calls (trace before)))
    ∧ final res = final before.
Proof.
  assert (outcome (sample_pager yield []) =
            Ok (Awaiting DEFAULT_RATE_LIMIT_TIMEOUT first_params)) as Hrun
    by (vm_compute; reflexivity).
  split; [exact Hrun|]. split; [reflexivity|].
  apply (pager_error_member_exits "deviantart" "oauth" sample_redirect
           probe_succeeds tokens_issued ∅ "GET" "/api/v1/oauth2/gallery/all"
           yield sample_params [] (Response 200 (Some failed_listing))
           failed_listing (PStr "Internal error.") sample_extra
           sample_machine first_params Hrun); [discriminate|reflexivity..].
Defined.

Lemma pager_http_failure_raises_witness :
  ok (Response 500 (Some (listing_body [PInt 1] false PNone))) = false
  ∧ sample_pager yield
      ([] ++ Answer (Response 500 (Some (listing_body [PInt 1] false PNone)))
             :: sample_extra) =
    Run (trace (sample_pager yield []) ++
         [EvHttp (Request "GET" "/api/v1/oauth2/gallery/all" first_params ∅)
                 (Answer (Response 500
                            (Some (listing_body [PInt 1] false PNone))))])
        (Raise (ClientResponseError 500))
        (final (sample_pager yield [])).
Proof.
  split; [reflexivity|].
  apply (pager_http_failure_raises "deviantart" "oauth" sample_redirect
           probe_succeeds tokens_issued ∅ "GET" "/api/v1/oauth2/gallery/all"
           yield sample_params []
           (Response 500 (Some (listing_body [PInt 1] false PNone)))
           (listing_body [PInt 1] false PNone) sample_extra sample_machine
           first_params);
    [vm_compute; reflexivity | discriminate | reflexivity..].
Defined.

Lemma pager_unreadable_reply_ends_run_witness :
  json (Response 429 None) = None
  ∧ sample_pager yield ([] ++ Answer (Response 429 None) :: sample_extra) =
    Run (trace (sample_pager yield []) ++
         [EvHttp (Request "GET" "/api/v1/oauth2/gallery/all" first_params ∅)
                 (Answer (Response 429 None))])
        (Raise ContentError)
        (final (sample_pager yield [])).
Proof.
  split; [reflexivity|].
  apply (pager_unreadable_reply_ends_run "deviantart" "oauth" sample_redirect
           probe_succeeds tokens_issued ∅ "GET" "/api/v1/oauth2/gallery/all"
           yield sample_params [] (Answer (Response 429 None)) sample_extra
           sample_machine DEFAULT_RATE_LIMIT_TIMEOUT first_params);
    [vm_compute; reflexivity | reflexivity].
Defined.

(** A run of the pager that was given no [username]. *)
Definition nameless_pager (replies : list reply) : run pager_end :=
  _pager "deviantart" "oauth" sample_redirect probe_succeeds tokens_issued
         ∅ "GET" "/api/v1/oauth2/browse/newest" ∅ yield replies sample_machine.
Definition nameless_params : gmap string pyval :=
  <["mature_content" := PStr "true"]>
    (<["limit" := PInt 24]> (<["offset" := PInt 0]> ∅)).

Lemma pager_first_throttle_needs_username_witness :
  consumer yield
  ∧ (∅ : gmap string pyval) !! "username" = None
  ∧ status too_many_requests = 429
  ∧ nameless_pager ([] ++ Answer too_many_requests :: sample_extra) =
    Run (trace (nameless_pager []) ++
         [EvHttp (Request "GET" "/api/v1/oauth2/browse/newest"
                          nameless_params ∅)
                 (Answer too_many_requests)])
        (Raise (KeyError "username"))
        (final (nameless_pager [])).
Proof.
  assert (consumer yield) as Hc by (intros x σ; reflexivity).
  split; [exact Hc|]. repeat (split; [reflexivity|]).
  apply (pager_first_throttle_needs_username "deviantart" "oauth"
           sample_redirect probe_succeeds tokens_issued ∅ "GET"
           "/api/v1/oauth2/browse/newest" yield ∅ [] too_many_requests
           (PDict [("error", PStr "user_api_threshold")]) sample_extra
           sample_machine nameless_params Hc);
    [reflexivity | vm_compute; reflexivity | reflexivity..].
Defined.

Lemma pager_requests_shape_witness :
  consumer yield
  ∧ Forall (λ req,
              req_method req = "GET"
              ∧ req_url req = "/api/v1/oauth2/gallery/all"
              ∧ req_headers req = ∅
              ∧ req_params req !! "limit" = Some (PInt 24)
              ∧ req_params req !! "mature_content" = Some (PStr "true")
              ∧ ∀ k, k ≠ "offset" → k ≠ "limit" → k ≠ "mature_content" →
                     req_params req !! k = sample_params !! k)
      (pager_requests (trace (sample_pager yield cursor_replies))).
Proof.
  assert (consumer yield) as Hc by (intros x σ; reflexivity).
  split; [exact Hc|].
  exact (pager_requests_shape "deviantart" "oauth" sample_redirect
           probe_succeeds tokens_issued ∅ "GET" "/api/v1/oauth2/gallery/all"
           yield sample_params cursor_replies sample_machine Hc).
Defined.

Definition unchecked_listing : response :=
  Response 200 (Some (PDict [("error", PStr "server_error");
                             ("results", PList [PInt 7]);
                             ("has_more", PBool false)])).

Lemma pager_no_error_check_after_throttle_witness :
  outcome (sample_pager yield [Answer too_many_requests]) =
    Ok (Awaiting 64 first_params)
  ∧ ok unchecked_listing = true
  ∧ let before := sample_pager yield [Answer too_many_requests] in
    let res := sample_pager yield
                 ([Answer too_many_requests] ++ [Answer unchecked_listing]) in
    yielded (trace res) = yielded (trace before) ++ [PInt 7]
    ∧ outcome res ≠ Raise (SystemExit 1).
Proof.
  assert (outcome (sample_pager yield [Answer too_many_requests]) =
            Ok (Awaiting 64 first_params)) as Hrun
    by (vm_compute; reflexivity).
  split; [exact Hrun|]. split; [reflexivity|].
  apply (pager_no_error_check_after_throttle "deviantart" "oauth"
           sample_redirect probe_succeeds tokens_issued ∅ "GET"
           "/api/v1/oauth2/gallery/all" sample_params
           [Answer too_many_requests] unchecked_listing
           (PDict [("error", PStr "server_error");
                   ("results", PList [PInt 7]);
                   ("has_more", PBool false)])
           [PInt 7] sample_machine 64 first_params Hrun);
    [discriminate | discriminate | reflexivity | reflexivity | reflexivity
    | vm_compute; reflexivity].
Defined.


Definition art_info_replies : list reply :=
  [Answer (Response 429 None); Answer too_many_requests].
Definition art_info : pyval :=
  deviation "alice" "https://www.deviantart.com/alice/art/1" "id-1".

Lemma get_art_info_backoff_witness :
  (∀ n, probe_verdict (probe_succeeds n) = Ok true)
  ∧ forallb is_throttle art_info_replies = true
  ∧ let res :=
      get_art_info "deviantart" "oauth" sample_redirect probe_succeeds
        tokens_issued "id-1" DEFAULT_RATE_LIMIT_TIMEOUT
        (art_info_replies ++ Answer (Response 200 (Some art_info)) :: [])
        sample_machine in
    sleeps (trace res) = backoff 32 (length art_info_replies)
    ∧ ensure_access_calls (trace res) = S (length art_info_replies)
    ∧ printed (trace res) =
        (match art_info_replies with [] => [] | _ => [[]] end)
        ++ art_info_said art_info
    ∧ outcome res = art_info_result art_info
    ∧ token_exchanges (trace res) = []
    ∧ self (final res) = self sample_machine.
Proof.
  assert (∀ n, probe_verdict (probe_succeeds n) = Ok true) as Hprobe
    by (intros n; reflexivity).
  split; [exact Hprobe|]. split; [reflexivity|].
  apply (get_art_info_backoff "deviantart" "oauth" sample_redirect
           probe_succeeds tokens_issued Hprobe "id-1" art_info_replies
           (Response 200 (Some art_info)) art_info [] "old-access"
           sample_machine);
    [reflexivity | reflexivity | reflexivity | discriminate | reflexivity].
Defined.

Definition download_body : pyval :=
  PDict [("src", PStr "https://wixmp.example/file.png")].

Lemma get_download_ignores_status_witness :
  json (Response 200 (Some download_body)) =
    json (Response 429 (Some download_body))
  ∧ let res1 :=
      get_download "deviantart" "oauth" sample_redirect probe_succeeds
        tokens_issued "id-1" (Answer (Response 200 (Some download_body)))
        sample_machine in
    let res2 :=
      get_download "deviantart" "oauth" sample_redirect probe_succeeds
        tokens_issued "id-1" (Answer (Response 429 (Some download_body)))
        sample_machine in
    outcome res1 = outcome res2
    ∧ printed (trace res1) = printed (trace res2)
    ∧ http_calls (trace res1) = http_calls (trace res2)
    ∧ final res1 = final res2
    ∧ sleeps (trace res1) = [].
Proof.
  split; [reflexivity|].
  apply (get_download_ignores_status "deviantart" "oauth" sample_redirect
           probe_succeeds tokens_issued "id-1"
           (Response 200 (Some download_body))
           (Response 429 (Some download_body)) sample_machine); reflexivity.
Defined.

Lemma get_download_result_witness :
  outcome folder_guard = Ok tt
  ∧ _headers (self (final folder_guard)) = Ok folder_headers
  ∧ let res :=
      get_download "deviantart" "oauth" sample_redirect probe_succeeds
        tokens_issued "id-1" (Answer (Response 200 (Some download_body)))
        sample_machine in
    http_calls (trace res) =
      http_calls (trace folder_guard) ++
      [Request "GET" "/api/v1/oauth2/deviation/download/id-1" ∅
               folder_headers]
    ∧ outcome res = Ok (PStr "https://wixmp.example/file.png")
    ∧ printed (trace res) = printed (trace folder_guard) ++ []
    ∧ final res = final folder_guard.
Proof.
  repeat (split; [vm_compute; reflexivity|]).
  apply (get_download_result "deviantart" "oauth" sample_redirect
           probe_succeeds tokens_issued "id-1"
           (Response 200 (Some download_body)) download_body sample_machine
           folder_headers); vm_compute; reflexivity.
Defined.

(** Two pages of folders. *)
Definition folder (folderid name : string) (has_subfolders : bool) : pyval :=
  PDict [("folderid", PStr folderid);
         ("name", PStr name);
         ("has_subfolders", PBool has_subfolders)].
Definition folders_pages : list response :=
  [listing [folder "F1" "My Best Art" true; folder "F2" "Featured" false]
           true (PInt 24)].
Definition folders_last : response :=
  listing [folder "F3" "Scraps 2019" false] false PNone.
Definition folders_listing : run pager_end :=
  list_folders "deviantart" "oauth" sample_redirect probe_succeeds
    tokens_issued ascii_lower "alice"
    ((Answer <$> (folders_pages ++ [folders_last])) ++ sample_extra)
    sample_machine.


(** What the caller of [list_folders] receives and reads. *)
Example folders_listed :
  yielded (trace folders_listing) =
    [PDict [("id", PStr "F1"); ("name", PStr "my-best-art");
            ("pretty_name", PStr "My Best Art")];
     PDict [("id", PStr "F2"); ("name", PStr "featured");
            ("pretty_name", PStr "Featured")];
     PDict [("id", PStr "F3"); ("name", PStr "scraps-2019");
            ("pretty_name", PStr "Scraps 2019")]]
  ∧ printed (trace folders_listing) =
      [[PStr "Folder"; PStr "My Best Art";
        PStr "has subfolders, but this feature currently not supported"]].
Proof. split; reflexivity. Qed.


Lemma ensure_access_raises_only_witness :
  creds_wf "deviantart" "oauth" (creds (self blank_machine))
  ∧ outcome (_ensure_access "deviantart" "oauth" sample_redirect
               probe_succeeds tokens_issued blank_machine) =
      Raise (SystemExit 1)
  ∧ guard_exception (SystemExit 1) = true
  ∧ SystemExit 1 ≠ Exception "No refresh token"
  ∧ ∀ status, SystemExit 1 ≠ ClientResponseError status.
Proof.
  assert (creds_wf "deviantart" "oauth" (creds (self blank_machine))) as Hwf.
  { eexists _, _. split; reflexivity. }
  split; [exact Hwf|]. split; [reflexivity|].
  exact (ensure_access_raises_only "deviantart" "oauth" sample_redirect
           probe_succeeds tokens_issued blank_machine (SystemExit 1) Hwf
           eq_refl).
Defined.

Definition issued : pyval :=
  PDict [("access_token", PStr "new-access");
         ("refresh_token", PStr "new-refresh")].

Lemma first_use_sends_new_token_witness :
  creds_wf "deviantart" "oauth" (creds (self fresh_machine))
  ∧ is_None (refresh_token (self fresh_machine)) = true
  ∧ is_None (code (self fresh_machine)) = false
  ∧ tokens_issued (token_seen fresh_machine) =
      Answer (Response 200 (Some issued))
  ∧ ∃ c rest,
      trace (list_folder_arts "deviantart" "oauth" sample_redirect
               sample_cache_key probe_succeeds tokens_issued "alice" "F0LDER"
               folder_replies fresh_machine) =
        EvEnsureAccess
        :: EvHttp (token_request (code_grant sample_redirect
                                             (self fresh_machine))
                                 (self fresh_machine))
                  (Answer (Response 200 (Some issued)))
        :: EvSaveCreds c :: rest
      ∧ holds_exchange_result "deviantart" "oauth" c issued
      ∧ Forall (λ req, req_headers req =
                         {[ "authorization" :=
                              String.append "Bearer " "new-access" ]})
               (pager_requests rest).
Proof.
  assert (creds_wf "deviantart" "oauth" (creds (self fresh_machine))) as Hwf.
  { eexists _, _. split; reflexivity. }
  split; [exact Hwf|]. repeat (split; [reflexivity|]).
  exact (first_use_sends_new_token "deviantart" "oauth" sample_redirect
           sample_cache_key probe_succeeds tokens_issued fresh_machine
           (Response 200 (Some issued)) issued "new-access"
           (PStr "new-refresh") "alice" "F0LDER" folder_replies Hwf
           eq_refl eq_refl eq_refl eq_refl eq_refl eq_refl eq_refl eq_refl).
Defined.
